(** * App Store reviews parser: a shallow embedding of [app_store_parse.py]

    The Python module is embedded as executable Rocq definitions.

    - JSON values, as [response.json()] and [json.loads] return them, are
      the inductive [json]; a JSON object is a finite map from strings and
      Python's [None] is [JNull].  JSON numbers are integers here: the
      numbers the program computes with are counts and offsets.  The
      fields of a [Review] hold whatever JSON value the record had, as the
      dataclass does not check its annotations.
    - A Python [str] is held as the bytes of its UTF-8 encoding.  A lone
      surrogate, which [json.loads] produces from an escape such as
      [\ud800] and which the UTF-8 codec refuses to encode, is held as the
      three bytes the [surrogatepass] handler gives it ([ED], then a byte
      from [A0] to [BF], then a continuation byte).
    - Python exceptions are the constructors of [exn]; a computation that
      may raise returns a [result].
    - The parser object ([self]) is the record [parser]; its methods run in
      the monad [M], which threads the parser, may raise, and records the
      observable events: HTTP requests, log records and submissions to the
      thread pool.
    - The session is a function from requests to responses: the store
      gives the same answer to the same request throughout a run.
    - The thread pool is a parameter [sched] that gives the order in which
      the submitted units of work complete; a unit of work runs as one
      step.
    - A CSV file is the sequence of rows the [csv] writer has written to
      it, and the file system a finite map from absolute paths to files.
      A row is written by one [write] on a file opened with
      [encoding='utf-8'], which raises [UnicodeEncodeError], writing
      nothing of the row, when a field holds a lone surrogate.

    - [AppStoreParser.get_reviews] loops for as long as the store hands
      out a cursor; its loop takes a bound on the number of iterations and
      returns [None] when the bound is reached.

    The set-up of the logger is left out. *)

From Stdlib Require Import ZArith Lia Ascii String Sorting.Permutation.
From stdpp Require Import base option list list_numbers gmap strings sorting.
From stdpp Require Import pretty.

Set Warnings "-register-all".

Local Open Scope string_scope.
Local Open Scope Z_scope.
Local Open Scope list_scope.

(** ** Constants *)

Definition MAX_REVIEWS : Z := 5200.
Definition REVIEWS_PER_PAGE : Z := 10.

(** ** Python values and exceptions *)

Inductive json : Type :=
| JNull
| JBool (b : bool)
| JInt (z : Z)
| JStr (s : string)
| JArr (l : list json)
| JObj (o : gmap string json).

Inductive exn : Type :=
| KeyError (key : json)
| IndexError
| TypeError
| AttributeError
| AssertionError
| ValueError
| JSONDecodeError
| HTTPError (status : Z)
| RequestException
| OSError
| UnicodeEncodeError.

Inductive result (A : Type) : Type :=
| Err (e : exn)
| OK (a : A).
Arguments Err {A} e.
Arguments OK {A} a.

Global Instance result_ret : MRet result := λ A a, OK a.
Global Instance result_bind : MBind result := λ A B f r,
  match r with
  | Err e => Err e
  | OK a => f a
  end.

Definition is_OK {A} (r : result A) : bool :=
  match r with OK _ => true | Err _ => false end.

(** [bool(v)]: Python truthiness. *)
Definition truthy (v : json) : bool :=
  match v with
  | JNull => false
  | JBool b => b
  | JInt z => negb (Z.eqb z 0)
  | JStr s => negb (String.eqb s EmptyString)
  | JArr l => match l with [] => false | _ => true end
  | JObj o => negb (bool_decide (size o = 0%nat))
  end.

(** [v[k]] for a string key [k]. *)
Definition getitem_str (v : json) (k : string) : result json :=
  match v with
  | JObj o =>
      match o !! k with
      | Some x => OK x
      | None => Err (KeyError (JStr k))
      end
  | _ => Err TypeError
  end.

Fixpoint string_chars (s : string) : list string :=
  match s with
  | EmptyString => []
  | String c s' => String c EmptyString :: string_chars s'
  end.

(** [v[0]]. *)
Definition getitem_0 (v : json) : result json :=
  match v with
  | JArr l =>
      match l with
      | x :: _ => OK x
      | [] => Err IndexError
      end
  | JStr s =>
      match string_chars s with
      | c :: _ => OK (JStr c)
      | [] => Err IndexError
      end
  | JObj _ => Err (KeyError (JInt 0))
  | _ => Err TypeError
  end.

(** [v.get(k)]: only dicts have a [get] method; a missing key gives [None]. *)
Definition py_get (v : json) (k : string) : result json :=
  match v with
  | JObj o => OK (default JNull (o !! k))
  | _ => Err AttributeError
  end.

(** The elements a [for] loop over [v] visits.  Iterating a dict visits its
    keys, iterating a string its characters. *)
Definition py_iter (v : json) : result (list json) :=
  match v with
  | JArr l => OK l
  | JObj o => OK (JStr <$> (map_to_list o).*1)
  | JStr s => OK (JStr <$> string_chars s)
  | _ => Err TypeError
  end.

(** [v > n] and [v // n] for an integer [n > 0]; [bool] is a subclass of
    [int]. *)
Definition py_int (v : json) : result Z :=
  match v with
  | JInt z => OK z
  | JBool b => OK (Z.b2z b)
  | _ => Err TypeError
  end.

Definition py_gt (v : json) (n : Z) : result bool :=
  z ← py_int v; OK (Z.ltb n z).

Definition py_floordiv (v : json) (n : Z) : result Z :=
  z ← py_int v; OK (z / n).

(** ** Data model *)

Record DeveloperResponse : Type := mkDeveloperResponse {
  developer_id : json;
  body : json;
  modified : json
}.

Record Review : Type := mkReview {
  user_name : json;
  title : json;
  review : json;
  is_edited : json;
  last_update : json;
  rating : json;
  developer_response : option DeveloperResponse
}.

(** ** Decoding one page ([AppStoreParser._get_reviews], lines 197-218) *)

Definition decode_developer_response (review_attrs : json)
  : result (option DeveloperResponse) :=
  developer_response ← py_get review_attrs "developerResponse";
  match developer_response with
  | JNull => OK None
  | _ =>
      id ← getitem_str developer_response "id";
      b ← getitem_str developer_response "body";
      m ← getitem_str developer_response "modified";
      OK (Some (mkDeveloperResponse id b m))
  end.

(** The body of the [for review in reviews_data] loop. *)
Definition decode_review (review : json) : result Review :=
  review_attrs ← getitem_str review "attributes";
  developer_response ← decode_developer_response review_attrs;
  user_name ← getitem_str review_attrs "userName";
  rev ← getitem_str review_attrs "review";
  is_edited ← getitem_str review_attrs "isEdited";
  last_update ← getitem_str review_attrs "date";
  rating ← getitem_str review_attrs "rating";
  title ← getitem_str review_attrs "title";
  OK (mkReview user_name title rev is_edited last_update rating
        developer_response).

Fixpoint decode_loop (reviews_data : list json) (reviews : list Review)
  : result (list Review) :=
  match reviews_data with
  | [] => OK reviews
  | review :: rest =>
      r ← decode_review review;
      decode_loop rest (reviews ++ [r])
  end.

Definition decode_page (page_json : json) : result (json * list Review) :=
  reviews_data ← getitem_str page_json "data";
  items ← py_iter reviews_data;
  reviews ← decode_loop items [];
  next ← py_get page_json "next";
  OK (next, reviews).

(** ** The remote service and the parser object *)

(** The three URLs the program fetches, with the values it interpolates
    into the URL, the headers and the query string. *)
Inductive request : Type :=
| GetAppPage (name : string) (id : Z)
| GetAppInfo (name : string) (id : Z) (token : json)
| GetReviews (name : string) (id : Z) (token : json) (offset : Z).

(** What [response.html.find('meta[name=...]', first=True)] followed by
    [json.loads(unquote(app_meta.attrs['content']))] finds in a page. *)
Inductive meta_lookup : Type :=
| MetaMissing
| MetaWithoutContent
| MetaContentNotJson
| MetaContent (app_data : json).

Record response : Type := mkResponse {
  status_code : Z;
  json_body : option json;
  html_meta : meta_lookup
}.

(** [response.raise_for_status()] *)
Definition raise_for_status (r : response) : result unit :=
  if (400 <=? status_code r) && (status_code r <? 600)
  then Err (HTTPError (status_code r))
  else OK ().

(** [response.json()] *)
Definition response_json (r : response) : result json :=
  match json_body r with
  | Some j => OK j
  | None => Err JSONDecodeError
  end.

Definition meta_app_data (r : response) : result json :=
  match html_meta r with
  | MetaMissing => Err AttributeError
  | MetaWithoutContent => Err (KeyError (JStr "content"))
  | MetaContentNotJson => Err JSONDecodeError
  | MetaContent app_data => OK app_data
  end.

(** [AppStoreParser]: the session is a function from requests to
    responses (or a transport exception). *)
Record parser : Type := mkParser {
  app_name : string;
  app_id : Z;
  session : request → result response;
  _auth_token : json
}.

(** [AppStoreParser.__init__] *)
Definition AppStoreParser (srv : request → result response)
    (name : string) (id : Z) : parser :=
  mkParser name id srv JNull.

(** ** Paths ([os.path.dirname] and [pathlib.Path], POSIX flavour) *)

Definition is_slash (c : ascii) : bool := Ascii.eqb c "/"%char.

Fixpoint has_slash (p : string) : bool :=
  match p with
  | EmptyString => false
  | String c p' => is_slash c || has_slash p'
  end.

Fixpoint all_slashes (p : string) : bool :=
  match p with
  | EmptyString => true
  | String c p' => is_slash c && all_slashes p'
  end.

(** [p[:p.rfind('/') + 1]] *)
Fixpoint upto_last_slash (p : string) : string :=
  match p with
  | EmptyString => EmptyString
  | String c p' =>
      if has_slash p then String c (upto_last_slash p') else EmptyString
  end.

(** [head.rstrip('/')] *)
Fixpoint rstrip_slash (head : string) : string :=
  match head with
  | EmptyString => EmptyString
  | String c head' =>
      match rstrip_slash head' with
      | EmptyString => if is_slash c then EmptyString else String c EmptyString
      | r => String c r
      end
  end.

(** [os.path.dirname] *)
Definition dirname (p : string) : string :=
  let head := upto_last_slash p in
  if negb (String.eqb head EmptyString) && negb (all_slashes head)
  then rstrip_slash head
  else head.

(** [s.split('/')] *)
Fixpoint split_slash (s : string) : list string :=
  match s with
  | EmptyString => [EmptyString]
  | String c s' =>
      if is_slash c then EmptyString :: split_slash s'
      else
        match split_slash s' with
        | w :: ws => String c w :: ws
        | [] => [String c EmptyString]
        end
  end.

(** A [Path]: whether it is anchored at the root, and its components.  Any
    run of leading slashes counts as the root. *)
Record ppath : Type := mkPath {
  is_abs : bool;
  parts : list string
}.

Definition is_component (c : string) : bool :=
  negb (String.eqb c EmptyString) && negb (String.eqb c ".").

(** [Path(s)]: empty and [.] components are dropped. *)
Definition Path (s : string) : ppath :=
  mkPath (match s with String c _ => is_slash c | EmptyString => false end)
         (filter (λ c, is_component c = true) (split_slash s)).

(** [a / s]: an absolute right operand replaces the left one. *)
Definition joinpath (a : ppath) (s : string) : ppath :=
  let b := Path s in
  if is_abs b then b else mkPath (is_abs a) (parts a ++ parts b).

(** The process environment: the value of [__file__], the working
    directory (the components of its absolute path) and which files
    [open(..., 'w')] can open. *)
Record environ : Type := mkEnviron {
  dunder_file : string;
  cwd : list string;
  can_open_w : list string → bool
}.

(** The file the operating system opens for a path: a relative path is
    taken from the working directory.  Components are not resolved
    further. *)
Definition os_file (env : environ) (p : ppath) : list string :=
  if is_abs p then parts p else cwd env ++ parts p.

Definition BASE_PATH (env : environ) : ppath := Path (dirname (dunder_file env)).

(** ** Observable events *)

Inductive level : Type := INFO | WARNING | ERROR.

Inductive message : Type :=
| MsgAuthorizing
| MsgAuthorized
| MsgScanning (page_index : Z)
| MsgAppHas (name : string) (rating_count : json)
| MsgMoreThan (name : string) (limit : Z)
| MsgToScan (rating_count : json)
| MsgException (page : Z) (exc : exn)
| MsgPageScanned (page : Z)
| MsgScanned (count : nat)
| MsgWriting (path : ppath)
| MsgWritten (count : nat) (path : ppath).

Inductive event : Type :=
| EvRequest (r : request)
| EvLog (l : level) (m : message)
| EvSubmit (page : Z).

(** ** The monad of parser methods *)

Record M (A : Type) : Type := mkM {
  run : parser → result A * parser * list event
}.
Arguments mkM {A} run.
Arguments run {A} m self.

Global Instance M_ret : MRet M := λ A a, mkM (λ self, (OK a, self, [])).
Global Instance M_bind : MBind M := λ A B f m,
  mkM (λ self,
    match run m self with
    | (Err e, self', evs) => (Err e, self', evs)
    | (OK a, self', evs) =>
        match run (f a) self' with
        | (r, self'', evs') => (r, self'', evs ++ evs')
        end
    end).

Definition lift {A} (r : result A) : M A := mkM (λ self, (r, self, [])).
Definition get_self : M parser := mkM (λ self, (OK self, self, [])).
Definition set_auth_token (t : json) : M unit :=
  mkM (λ self,
    (OK (), mkParser (app_name self) (app_id self) (session self) t, [])).
Definition emit (ev : event) : M unit := mkM (λ self, (OK (), self, [ev])).
Definition log (l : level) (m : message) : M unit := emit (EvLog l m).

(** [try: ... except Exception as exc: ...] *)
Definition try {A} (m : M A) : M (result A) :=
  mkM (λ self, match run m self with (r, self', evs) => (OK r, self', evs) end).

(** [self.__session.get(...)] *)
Definition session_get (req : request) : M response :=
  emit (EvRequest req);;
  self ← get_self;
  lift (session self req).

(** ** [AppStoreParser] methods *)

Definition _auth : M unit :=
  log INFO MsgAuthorizing;;
  self ← get_self;
  response ← session_get (GetAppPage (app_name self) (app_id self));
  app_data ← lift (meta_app_data response);
  media_api ← lift (getitem_str app_data "MEDIA_API");
  auth_token ← lift (getitem_str media_api "token");
  set_auth_token auth_token;;
  log INFO MsgAuthorized.

Definition auth_required {A} (func : M A) : M A :=
  self ← get_self;
  (if negb (truthy (_auth_token self)) then _auth else mret ());;
  func.

Definition get_app_info : M json :=
  auth_required (
    self ← get_self;
    response ← session_get
      (GetAppInfo (app_name self) (app_id self) (_auth_token self));
    lift (raise_for_status response);;
    lift (response_json response)).

Definition get_app_rating_count : M json :=
  app_info ← get_app_info;
  data ← lift (getitem_str app_info "data");
  data0 ← lift (getitem_0 data);
  app_attributes ← lift (getitem_str data0 "attributes");
  user_rating ← lift (getitem_str app_attributes "userRating");
  rating_count ← lift (getitem_str user_rating "ratingCount");
  mret rating_count.

Definition _get_reviews (offset : Z) : M (json * list Review) :=
  auth_required (
    log INFO (MsgScanning (offset / REVIEWS_PER_PAGE));;
    self ← get_self;
    response ← session_get
      (GetReviews (app_name self) (app_id self) (_auth_token self) offset);
    lift (raise_for_status response);;
    page_json ← lift (response_json response);
    lift (decode_page page_json)).

Definition get_reviews_page (page : Z) : M (list Review) :=
  if 0 <? page then
    let page_offset := (page - 1) * REVIEWS_PER_PAGE in
    r ← _get_reviews page_offset;
    mret r.2
  else lift (Err AssertionError).

(** The [while next_page] loop of [get_reviews], for at most [fuel]
    tests of its condition; [None] when they are used up. *)
Fixpoint get_reviews_loop (fuel : nat) (next_page : json) (count : Z)
    (reviews : list Review) : M (option (list Review)) :=
  match fuel with
  | O => mret None
  | S fuel' =>
      if truthy next_page then
        r ← _get_reviews count;
        get_reviews_loop fuel' r.1 (count + Z.of_nat (length r.2))
          (reviews ++ r.2)
      else mret (Some reviews)
  end.

Definition get_reviews (fuel : nat) : M (option (list Review)) :=
  self ← get_self;
  let next_page :=
    JStr (String.append "/v1/catalog/ru/apps/"
            (String.append (pretty (app_id self)) "/reviews?l=ru&offset=0")) in
  get_reviews_loop fuel next_page 0 [].

(** ** [write_reviews] *)

(** The values a [Review.__dict__] holds. *)
Inductive pyobj : Type :=
| Val (v : json)
| DevResp (d : DeveloperResponse).

(** A CSV file as the sequence of rows handed to the [csv] writer. *)
Definition csv_row : Type := list pyobj.
Definition csv_file : Type := list csv_row.

Definition fieldnames : list string :=
  ["user_name"; "title"; "review"; "is_edited"; "last_update"; "rating"].

(** [review.__dict__] *)
Definition review_dict (r : Review) : gmap string pyobj :=
  <["user_name" := Val (user_name r)]>
  (<["title" := Val (title r)]>
  (<["review" := Val (review r)]>
  (<["is_edited" := Val (is_edited r)]>
  (<["last_update" := Val (last_update r)]>
  (<["rating" := Val (rating r)]>
  (<["developer_response" :=
       match developer_response r with
       | Some d => DevResp d
       | None => Val JNull
       end]> ∅)))))).

(** [csv.DictWriter._dict_to_list] with the default [extrasaction='raise']
    and [restval='']. *)
Definition dict_to_list (names : list string) (rowdict : gmap string pyobj)
  : result csv_row :=
  if bool_decide (dom rowdict ⊆ list_to_set names)
  then OK ((λ key, default (Val (JStr EmptyString)) (rowdict !! key)) <$> names)
  else Err ValueError.

(** [csv.DictWriter.writeheader] writes the field names themselves. *)
Definition header_row (names : list string) : csv_row :=
  (λ key, Val (JStr key)) <$> names.

(** Whether [s] holds a lone surrogate: the byte [ED] followed by a byte
    from [A0] to [BF]. *)
Definition is_surrogate_lead (c d : ascii) : bool :=
  (N_of_ascii c =? 237)%N && (160 <=? N_of_ascii d)%N
    && (N_of_ascii d <=? 191)%N.

Fixpoint has_surrogate (s : string) : bool :=
  match s with
  | EmptyString => false
  | String c rest =>
      match rest with
      | String d _ => is_surrogate_lead c d
      | EmptyString => false
      end || has_surrogate rest
  end.

(** Whether the text the writer makes of a field can be encoded.  A string
    is written as it is; a number, a boolean and [None] give ASCII text,
    and so does a list or an object, whose text is its [repr], in which a
    surrogate is escaped. *)
Definition cell_encodable (c : pyobj) : bool :=
  match c with
  | Val (JStr s) => negb (has_surrogate s)
  | _ => true
  end.

(** The [write] of the line of a row to the file, which encodes it; the
    device is taken to accept the bytes. *)
Definition write_line (row : csv_row) : result unit :=
  if forallb cell_encodable row then OK () else Err UnicodeEncodeError.

(** The [for review in reviews] loop; [f] is the file written so far. *)
Fixpoint write_rows (reviews : list Review) (f : csv_file)
  : result unit * csv_file :=
  match reviews with
  | [] => (OK (), f)
  | review :: rest =>
      let _review := delete "developer_response" (review_dict review) in
      match dict_to_list fieldnames _review with
      | Err e => (Err e, f)
      | OK row =>
          match write_line row with
          | Err e => (Err e, f)
          | OK _ => write_rows rest (f ++ [row])
          end
      end
  end.

Definition write_reviews (env : environ) (reviews : list Review)
    (output_file_path : ppath) (files : gmap (list string) csv_file)
  : result unit * gmap (list string) csv_file * list event :=
  let target := os_file env output_file_path in
  if can_open_w env target then
    match write_rows reviews [header_row fieldnames] with
    | (OK _, f) =>
        (OK (), <[target := f]> files,
         [EvLog INFO (MsgWriting output_file_path);
          EvLog INFO (MsgWritten (length reviews) output_file_path)])
    | (Err e, f) =>
        (Err e, <[target := f]> files,
         [EvLog INFO (MsgWriting output_file_path)])
    end
  else (Err OSError, files, [EvLog INFO (MsgWriting output_file_path)]).

(** ** [parse_parallel] *)

(** [range(1, last_page + 1)] *)
Definition pages_range (last_page : Z) : list Z := seqZ 1 last_page.

(** [list.sort(key=itemgetter(0))]: a stable sort on the page number. *)
Fixpoint insert_by_page (x : Z * list Review) (l : list (Z * list Review))
  : list (Z * list Review) :=
  match l with
  | [] => [x]
  | y :: l' => if x.1 <=? y.1 then x :: l else y :: insert_by_page x l'
  end.

Fixpoint sort_by_page (l : list (Z * list Review)) : list (Z * list Review) :=
  match l with
  | [] => []
  | x :: l' => insert_by_page x (sort_by_page l')
  end.

(** The dict comprehension of [executor.submit] calls. *)
Fixpoint submit_all (pages : list Z) : M unit :=
  match pages with
  | [] => mret ()
  | page :: rest => emit (EvSubmit page);; submit_all rest
  end.

(** The [for future in as_completed(future_to_page)] loop.  [completed]
    lists the pages in the order their futures complete; each unit of work
    is run as one step when its turn comes. *)
Fixpoint as_completed_loop (completed : list Z)
    (results : list (Z * list Review)) : M (list (Z * list Review)) :=
  match completed with
  | [] => mret results
  | page :: rest =>
      outcome ← try (get_reviews_page page);
      results' ←
        match outcome with
        | Err exc => log ERROR (MsgException page exc);; mret results
        | OK reviews =>
            log INFO (MsgPageScanned page);;
            mret (results ++ [(page, reviews)])
        end;
      as_completed_loop rest results'
  end.

(** [sched] is the thread pool's scheduling: the order in which the
    futures of the submitted pages complete.  The pool is created with the
    default [max_workers], which bounds how many units run at once. *)
Definition parse_parallel (sched : list Z → list Z) : M (list Review) :=
  rating_count ← get_app_rating_count;
  self ← get_self;
  log INFO (MsgAppHas (app_name self) rating_count);;
  exceeds ← lift (py_gt rating_count MAX_REVIEWS);
  rating_count ←
    (if exceeds : bool
     then log WARNING (MsgMoreThan (app_name self) MAX_REVIEWS);;
          mret (JInt MAX_REVIEWS)
     else mret rating_count);
  last_page ← lift (py_floordiv rating_count REVIEWS_PER_PAGE);
  log INFO (MsgToScan rating_count);;
  submit_all (pages_range last_page);;
  results ← as_completed_loop (sched (pages_range last_page)) [];
  let reviews := concat ((sort_by_page results).*2) in
  log INFO (MsgScanned (length reviews));;
  mret reviews.

(** ** The program ([if __name__ == '__main__']) *)

Definition main (env : environ) (srv : request → result response)
    (sched : list Z → list Z) (name : string) (id : Z)
    (files : gmap (list string) csv_file)
  : result unit * gmap (list string) csv_file * list event :=
  let parser := AppStoreParser srv name id in
  match run (parse_parallel sched) parser with
  | (Err e, _, evs) => (Err e, files, evs)
  | (OK reviews, _, evs) =>
      let output_path := joinpath (BASE_PATH env) (String.append name ".csv") in
      match write_reviews env reviews output_path files with
      | (r, files', evs') => (r, files', evs ++ evs')
      end
  end.

(** ** The sequential baseline

    Stated from the specification: fetch the given pages strictly one
    after the other, in the order given, and concatenate what they
    return. *)
Fixpoint sequential_baseline (pages : list Z) : M (list Review) :=
  match pages with
  | [] => mret []
  | page :: rest =>
      reviews ← get_reviews_page page;
      more ← sequential_baseline rest;
      mret (reviews ++ more)
  end.

(** * Notions used in the statements *)

(** ** Steps of the methods *)

(** The token [_auth] extracts from the application page. *)
Definition fetch_token (self : parser) : result json :=
  response ← session self (GetAppPage (app_name self) (app_id self));
  app_data ← meta_app_data response;
  media_api ← getitem_str app_data "MEDIA_API";
  getitem_str media_api "token".

Definition with_token (self : parser) (t : json) : parser :=
  mkParser (app_name self) (app_id self) (session self) t.

(** The part of [_get_reviews] under the [auth_required] wrapper. *)
Definition fetch_page (self : parser) (offset : Z) : result (json * list Review) :=
  response ← session self
    (GetReviews (app_name self) (app_id self) (_auth_token self) offset);
  raise_for_status response;;
  page_json ← response_json response;
  decode_page page_json.

Definition fetch_page_events (self : parser) (offset : Z) : list event :=
  [EvLog INFO (MsgScanning (offset / REVIEWS_PER_PAGE));
   EvRequest (GetReviews (app_name self) (app_id self) (_auth_token self) offset)].

(** The parts of [get_app_info] and [get_app_rating_count] after
    authentication. *)
Definition fetch_info (self : parser) : result json :=
  response ← session self
    (GetAppInfo (app_name self) (app_id self) (_auth_token self));
  raise_for_status response;;
  response_json response.

Definition rating_of (app_info : json) : result json :=
  data ← getitem_str app_info "data";
  data0 ← getitem_0 data;
  app_attributes ← getitem_str data0 "attributes";
  user_rating ← getitem_str app_attributes "userRating";
  getitem_str user_rating "ratingCount".

Definition info_events (self : parser) : list event :=
  [EvRequest (GetAppInfo (app_name self) (app_id self) (_auth_token self))].

(** ** Units of work *)

(** A parser is settled when authenticating again would leave it as it is:
    its token is truthy (so no method authenticates), or the token the
    application page yields is the one it already holds. *)
Definition settled (self : parser) : Prop :=
  truthy (_auth_token self) = true ∨
  ∀ t, fetch_token self = OK t → t = _auth_token self.

(** The result and the events of the unit of work for [page], run by
    [self]. *)
Definition page_outcome (self : parser) (page : Z) : result (list Review) :=
  (run (get_reviews_page page) self).1.1.

Definition unit_events (self : parser) (page : Z) : list event :=
  (run (get_reviews_page page) self).2.

(** The record the [as_completed] loop logs for [page]. *)
Definition completion_log (self : parser) (page : Z) : event :=
  match page_outcome self page with
  | Err exc => EvLog ERROR (MsgException page exc)
  | OK _ => EvLog INFO (MsgPageScanned page)
  end.

(** What the [as_completed] loop appends to [results] and records. *)
Definition collected (self : parser) (pages : list Z) : list (Z * list Review) :=
  omap (λ page,
    match page_outcome self page with
    | OK reviews => Some (page, reviews)
    | Err _ => None
    end) pages.

Definition loop_events (self : parser) (pages : list Z) : list event :=
  pages ≫= (λ page, unit_events self page ++ [completion_log self page]).

(** The reviews a page contributes: those it returns, none if it raises. *)
Definition payload (self : parser) (page : Z) : list Review :=
  match page_outcome self page with
  | OK reviews => reviews
  | Err _ => []
  end.

(** ** The orchestrator *)

(** The rating count after the clamp to [MAX_REVIEWS]. *)
Definition clamped_count (z : Z) : Z :=
  if MAX_REVIEWS <? z then MAX_REVIEWS else z.

(** The pages [parse_parallel] submits for a rating count [z]. *)
Definition planned_pages (z : Z) : list Z :=
  pages_range (clamped_count z / REVIEWS_PER_PAGE).

(** What [parse_parallel] returns and records once the rating count [rc],
    an integer [z], is known and the parser is [self]. *)
Definition orchestrated (sched : list Z → list Z) (self : parser) (z : Z)
  : list Review :=
  concat (sort_by_page (collected self (sched (planned_pages z)))).*2.

Definition orchestrator_events (sched : list Z → list Z) (self : parser)
    (rc : json) (z : Z) : list event :=
  [EvLog INFO (MsgAppHas (app_name self) rc)] ++
  (if MAX_REVIEWS <? z
   then [EvLog WARNING (MsgMoreThan (app_name self) MAX_REVIEWS);
         EvLog INFO (MsgToScan (JInt MAX_REVIEWS))]
   else [EvLog INFO (MsgToScan rc)]) ++
  (EvSubmit <$> planned_pages z) ++
  loop_events self (sched (planned_pages z)) ++
  [EvLog INFO (MsgScanned (length (orchestrated sched self z)))].

(** The order [sort_by_page] sorts by. *)
Definition page_le (x y : Z * list Review) : Prop := x.1 ≤ y.1.



(** Stated from the specification: clamp the estimated total to the cap,
    then divide by the page size, truncating. *)
Definition spec_last_page (estimated_total : Z) : Z :=
  (if estimated_total >? MAX_REVIEWS then MAX_REVIEWS else estimated_total)
    ÷ REVIEWS_PER_PAGE.

(** ** Reading the events *)

(** The events of [_auth], of [get_app_rating_count] and of the unit of
    work at [offset]. *)
Definition auth_event (ev : event) : bool :=
  match ev with
  | EvLog INFO MsgAuthorizing | EvLog INFO MsgAuthorized => true
  | EvRequest (GetAppPage _ _) => true
  | _ => false
  end.

Definition count_event (ev : event) : bool :=
  match ev with
  | EvRequest (GetAppInfo _ _ _) => true
  | _ => auth_event ev
  end.

Definition unit_event (offset : Z) (ev : event) : bool :=
  match ev with
  | EvLog INFO (MsgScanning i) => i =? offset / REVIEWS_PER_PAGE
  | EvRequest (GetReviews _ _ _ o) => o =? offset
  | _ => auth_event ev
  end.

(** The events that belong to the pool: submissions, reviews requests and
    completion records. *)
Definition page_fetch_event (ev : event) : bool :=
  match ev with
  | EvSubmit _ | EvRequest (GetReviews _ _ _ _) => true
  | EvLog _ (MsgPageScanned _) | EvLog _ (MsgException _ _) => true
  | _ => false
  end.

(** The pages handed to [executor.submit], in submission order. *)
Definition submitted (evs : list event) : list Z :=
  omap (λ ev, match ev with EvSubmit page => Some page | _ => None end) evs.


(** How many events satisfy [f]. *)
Definition count_where (f : event → bool) (evs : list event) : nat :=
  length (filter (λ ev, f ev = true) evs).

(** An error-level record about page [k]. *)
Definition error_about (k : Z) (ev : event) : bool :=
  match ev with
  | EvLog ERROR (MsgException page _) => page =? k
  | _ => false
  end.

(** A reviews request at [offset]. *)
Definition request_at (offset : Z) (ev : event) : bool :=
  match ev with
  | EvRequest (GetReviews _ _ _ o) => o =? offset
  | _ => false
  end.

(** ** Records, rows and the destination *)

(** The keys [_get_reviews] reads from a record's attributes. *)
Definition required_fields : list string :=
  ["userName"; "review"; "isEdited"; "date"; "rating"; "title"].

(** The record is an object whose [attributes] object has no key [k]. *)
Definition lacks (record : json) (k : string) : Prop :=
  ∃ ro attrs,
    record = JObj ro ∧ ro !! "attributes" = Some (JObj attrs) ∧
    attrs !! k = None.

(** The row of a review: its six scalar fields, in the order of
    [fieldnames]. *)
Definition row_of (r : Review) : csv_row :=
  Val <$> [user_name r; title r; review r; is_edited r; last_update r; rating r].

(** Whether every field of the row of a review can be encoded, and the
    reviews that come before the first one for which that fails. *)
Definition review_encodable (r : Review) : bool :=
  forallb cell_encodable (row_of r).

Fixpoint encodable_prefix (reviews : list Review) : list Review :=
  match reviews with
  | [] => []
  | r :: rest =>
      if review_encodable r then r :: encodable_prefix rest else []
  end.


(** The claim that every review gets its row. *)
Definition writes_one_row_per_review : Prop :=
  ∀ env reviews path files,
    can_open_w env (os_file env path) = true →
    (write_reviews env reviews path files).1.2 !! os_file env path =
      Some (header_row fieldnames :: (row_of <$> reviews)).

(** The claim that the output lands in the working directory. *)
Definition writes_to_working_directory : Prop :=
  ∀ env srv sched name id files files' evs,
    main env srv sched name id files = (OK (), files', evs) →
    is_Some (files' !! (cwd env ++ [String.append name ".csv"])).

(** ** A sample store *)

(** A JSON object from its members. *)
Definition obj (l : list (string * json)) : json := JObj (list_to_map l).

(** A review record, with or without a developer response. *)
Definition sample_record (who : string) (stars : Z) (reply : option string)
  : json :=
  obj [("attributes",
        obj ([("userName", JStr who); ("review", JStr "text");
              ("isEdited", JBool false); ("date", JStr "2020-01-01");
              ("rating", JInt stars); ("title", JStr "t")] ++
             match reply with
             | Some b => [("developerResponse",
                           obj [("id", JInt 7); ("body", JStr b);
                                ("modified", JStr "2020-01-02")])]
             | None => []
             end))].

(** A store whose application has [count] ratings and whose review page at
    offset [bad] answers with status 500. *)
Definition sample_srv (count : Z) (bad : Z) (req : request) : result response :=
  match req with
  | GetAppPage _ _ =>
      OK (mkResponse 200 None
            (MetaContent (obj [("MEDIA_API", obj [("token", JStr "tok")])])))
  | GetAppInfo _ _ _ =>
      OK (mkResponse 200
            (Some (obj [("data", JArr [obj [("attributes",
               obj [("userRating", obj [("ratingCount", JInt count)])])]])]))
            MetaMissing)
  | GetReviews _ _ _ offset =>
      if offset =? bad then OK (mkResponse 500 None MetaMissing)
      else OK (mkResponse 200
            (Some (obj [("data",
               JArr [sample_record "a" offset None;
                     sample_record "b" (offset + 1) (Some "thanks")])]))
            MetaMissing)
  end.

Definition sample_parser (count bad : Z) : parser :=
  AppStoreParser (sample_srv count bad) "app" 1.

(** A store that answers every reviews request with the body [page_json]. *)
Definition fixed_page_srv (count : Z) (page_json : json) (req : request)
  : result response :=
  match req with
  | GetReviews _ _ _ _ => OK (mkResponse 200 (Some page_json) MetaMissing)
  | _ => sample_srv count (-1) req
  end.

(** A record without a [title], and a page that holds it. *)
Definition untitled_record : json :=
  obj [("attributes",
        obj [("userName", JStr "c"); ("review", JStr "text");
             ("isEdited", JBool true); ("date", JStr "2020-01-03");
             ("rating", JInt 1)])].

Definition page_with_untitled : json :=
  obj [("data", JArr [sample_record "a" 5 None; untitled_record])].

Definition sample_review (who : string) (reply : option DeveloperResponse)
  : Review :=
  mkReview (JStr who) (JStr "t") (JStr "text") (JBool false)
    (JStr "2020-01-01") (JInt 5) reply.

(** A store whose application-info endpoint is down. *)
Definition down_srv (req : request) : result response :=
  match req with
  | GetAppInfo _ _ _ => OK (mkResponse 503 None MetaMissing)
  | _ => sample_srv 25 (-1) req
  end.

(** A store that answers a reviews request with the body [page_json] when
    it carries the token [tok], and with status 401 otherwise. *)
Definition guarded_page_srv (page_json : json) (req : request)
  : result response :=
  match req with
  | GetReviews _ _ token _ =>
      match token with
      | JStr t =>
          if String.eqb t "tok"
          then OK (mkResponse 200 (Some page_json) MetaMissing)
          else OK (mkResponse 401 None MetaMissing)
      | _ => OK (mkResponse 401 None MetaMissing)
      end
  | _ => sample_srv 15 (-1) req
  end.

(** A review whose author name is the lone surrogate [U+D800]. *)
Definition lone_surrogate : string :=
  String (ascii_of_nat 237)
    (String (ascii_of_nat 160) (String (ascii_of_nat 128) EmptyString)).

Definition surrogate_review : Review :=
  mkReview (JStr lone_surrogate) (JStr "t") (JStr "text") (JBool false)
    (JStr "2020-01-01") (JInt 5) None.

(** The script is [/opt/tool/app_store_parse.py], the working directory
    [/home/user], and every file can be opened. *)
Definition sample_env : environ :=
  mkEnviron "/opt/tool/app_store_parse.py" ["home"; "user"] (λ _, true).

(** The program started as [/opt/tool/app_store_parse.py] from
    [/home/user], for an application with 15 ratings. *)
Definition sample_run
  : result unit * gmap (list string) csv_file * list event :=
  main sample_env (sample_srv 15 (-1)) id "app" 1 ∅.

(** ** Following the cursor *)

(** The parser a method leaves behind once [auth_required] has let it
    through, and the events of that authentication. *)
Definition after_auth (self : parser) : parser :=
  if truthy (_auth_token self) then self
  else
    match fetch_token self with
    | OK t => with_token self t
    | Err _ => self
    end.

Definition auth_prefix (self : parser) : list event :=
  if truthy (_auth_token self) then [] else (run _auth self).2.

(** The store answers the requests at [count], [count] plus the size of
    the first page, and so on, with [pages]. *)
Fixpoint fetched (self : parser) (count : Z)
    (pages : list (json * list Review)) : Prop :=
  match pages with
  | [] => True
  | p :: rest =>
      fetch_page self count = OK p ∧
      fetched self (count + Z.of_nat (length p.2)) rest
  end.

Fixpoint offsets_of (count : Z) (pages : list (json * list Review)) : list Z :=
  match pages with
  | [] => []
  | p :: rest => count :: offsets_of (count + Z.of_nat (length p.2)) rest
  end.

Definition total_reviews (pages : list (json * list Review)) : Z :=
  Z.of_nat (length (concat pages.*2)).

(** A store with three reviews behind a cursor: two at offset 0, one at
    offset 2; anything else is not found. *)
Definition cursor_srv (req : request) : result response :=
  match req with
  | GetReviews _ _ _ offset =>
      if offset =? 0 then
        OK (mkResponse 200
              (Some (obj [("data", JArr [sample_record "a" 5 None;
                                         sample_record "b" 4 None]);
                          ("next", JStr "/reviews?offset=2")]))
              MetaMissing)
      else if offset =? 2 then
        OK (mkResponse 200
              (Some (obj [("data", JArr [sample_record "c" 3 None])]))
              MetaMissing)
      else OK (mkResponse 404 None MetaMissing)
  | _ => sample_srv 3 (-1) req
  end.

(** A store that answers every reviews request with an empty page and a
    cursor. *)
Definition stuck_srv (req : request) : result response :=
  fixed_page_srv 3 (obj [("data", JArr []); ("next", JStr "/more")]) req.

(** The store of [cursor_srv] with its second page gone. *)
Definition cut_cursor_srv (req : request) : result response :=
  match req with
  | GetReviews _ _ _ offset =>
      if offset =? 0 then cursor_srv req
      else OK (mkResponse 404 None MetaMissing)
  | _ => cursor_srv req
  end.

(** ** Authentication *)

(** A request for the application page. *)
Definition auth_request (ev : event) : bool :=
  match ev with
  | EvRequest (GetAppPage _ _) => true
  | _ => false
  end.

(** A store whose application page carries no configuration. *)
Definition anonymous_srv (req : request) : result response :=
  match req with
  | GetAppPage _ _ => OK (mkResponse 200 None MetaMissing)
  | _ => sample_srv 25 (-1) req
  end.

(** ** Requests of a run *)

(** The request, if [ev] is one, is for the application of [self] and,
    where a token is sent, carries the token of [self]. *)
Definition request_for (self : parser) (ev : event) : Prop :=
  match ev with
  | EvRequest (GetAppPage name id) => name = app_name self ∧ id = app_id self
  | EvRequest (GetAppInfo name id token)
  | EvRequest (GetReviews name id token _) =>
      name = app_name self ∧ id = app_id self ∧ token = _auth_token self
  | _ => True
  end.

(** A store whose rating count is not a number. *)
Definition unrated_srv (req : request) : result response :=
  match req with
  | GetAppInfo _ _ _ =>
      OK (mkResponse 200
            (Some (obj [("data", JArr [obj [("attributes",
               obj [("userRating", obj [("ratingCount", JStr "n/a")])])]])]))
            MetaMissing)
  | _ => sample_srv 25 (-1) req
  end.

(** ** Well-formed records *)

(** The [developerResponse] entry of [attrs] that decodes to [dr]. *)
Definition response_matches (attrs : gmap string json)
    (dr : option DeveloperResponse) : Prop :=
  match dr with
  | None =>
      attrs !! "developerResponse" = None ∨
      attrs !! "developerResponse" = Some JNull
  | Some d =>
      ∃ o, attrs !! "developerResponse" = Some (JObj o) ∧
           o !! "id" = Some (developer_id d) ∧
           o !! "body" = Some (body d) ∧
           o !! "modified" = Some (modified d)
  end.

(** A store that hands out the empty string as its token. *)
Definition blank_token_srv (req : request) : result response :=
  match req with
  | GetAppPage _ _ =>
      OK (mkResponse 200 None
            (MetaContent (obj [("MEDIA_API", obj [("token", JStr EmptyString)])])))
  | _ => sample_srv 25 (-1) req
  end.

(** * Properties *)

(** ** The model on small inputs *)

Example dirname_of_script :
  dirname "/opt/tool/app_store_parse.py" = "/opt/tool" ∧
  dirname "app_store_parse.py" = EmptyString ∧
  dirname "/app_store_parse.py" = "/" ∧
  dirname "tool//app_store_parse.py" = "tool".
Proof. repeat split; reflexivity. Qed.

Example path_joins :
  joinpath (Path "/opt/tool") "app.csv" = mkPath true ["opt"; "tool"; "app.csv"] ∧
  joinpath (Path EmptyString) "app.csv" = mkPath false ["app.csv"] ∧
  joinpath (Path "/opt/tool") "/tmp/app.csv" = mkPath true ["tmp"; "app.csv"] ∧
  joinpath (Path "./tool/") "a/b.csv" = mkPath false ["tool"; "a"; "b.csv"].
Proof. repeat split; reflexivity. Qed.

Example sort_is_stable (a b c d : list Review) :
  sort_by_page [(3, a); (1, b); (3, c); (2, d)] = [(1, b); (2, d); (3, a); (3, c)].
Proof. reflexivity. Qed.

Example floor_division :
  py_floordiv (JInt 25) REVIEWS_PER_PAGE = OK 2 ∧
  py_floordiv (JInt (-5)) REVIEWS_PER_PAGE = OK (-1) ∧
  py_floordiv (JBool true) REVIEWS_PER_PAGE = OK 0 ∧
  py_floordiv (JStr "25") REVIEWS_PER_PAGE = Err TypeError.
Proof. repeat split; reflexivity. Qed.

Example sample_pages_out_of_order :
  (run (parse_parallel reverse) (sample_parser 25 (-1))).1.1 =
  (run (parse_parallel id) (sample_parser 25 (-1))).1.1.
Proof. vm_compute. reflexivity. Qed.

Example sample_null_response :
  decode_review
    (obj [("attributes",
           obj [("userName", JStr "c"); ("review", JStr "text");
                ("isEdited", JBool true); ("date", JStr "2020-01-03");
                ("rating", JInt 1); ("title", JNull);
                ("developerResponse", JNull)])])
  = OK (mkReview (JStr "c") JNull (JStr "text") (JBool true)
          (JStr "2020-01-03") (JInt 1) None).
Proof. vm_compute. reflexivity. Qed.

(** ** Running the monad *)

Lemma run_bind {A B} (m : M A) (f : A → M B) (self : parser) :
  run (m ≫= f) self =
    match run m self with
    | (Err e, self', evs) => (Err e, self', evs)
    | (OK a, self', evs) =>
        match run (f a) self' with
        | (r, self'', evs') => (r, self'', evs ++ evs')
        end
    end.
Proof. reflexivity. Qed.

Lemma run_lift_bind {A B} (r : result A) (f : A → M B) (self : parser) :
  run (lift r ≫= f) self =
    match r with
    | Err e => (Err e, self, [])
    | OK a => run (f a) self
    end.
Proof.
  rewrite run_bind. simpl. destruct r as [e|a]; [done|].
  by destruct (run (f a) self) as [[r s] evs].
Qed.

Lemma run__auth (self : parser) :
  run _auth self =
    match fetch_token self with
    | Err e =>
        (Err e, self,
         [EvLog INFO MsgAuthorizing;
          EvRequest (GetAppPage (app_name self) (app_id self))])
    | OK t =>
        (OK (), with_token self t,
         [EvLog INFO MsgAuthorizing;
          EvRequest (GetAppPage (app_name self) (app_id self));
          EvLog INFO MsgAuthorized])
    end.
Proof.
  unfold _auth, fetch_token, session_get, log, emit, get_self. simpl.
  destruct (session self _) as [e|response]; simpl; [done|].
  destruct (meta_app_data response) as [e|app_data]; simpl; [done|].
  destruct (getitem_str app_data "MEDIA_API") as [e|media_api]; simpl; [done|].
  by destruct (getitem_str media_api "token") as [e|t]; simpl.
Qed.

Lemma run_auth_required {A} (func : M A) (self : parser) :
  run (auth_required func) self =
    if truthy (_auth_token self) then run func self
    else
      match run _auth self with
      | (Err e, self', evs) => (Err e, self', evs)
      | (OK _, self', evs) =>
          match run func self' with
          | (r, self'', evs') => (r, self'', evs ++ evs')
          end
      end.
Proof.
  unfold auth_required. rewrite run_bind. cbn [run get_self].
  destruct (truthy (_auth_token self)); cbn [negb]; rewrite run_bind.
  - cbn [run mret M_ret]. by destruct (run func self) as [[r s] evs].
  - destruct (run _auth self) as [[[e|[]] s] evs]; [done|].
    by destruct (run func s) as [[r s'] evs'].
Qed.

Lemma run__get_reviews (offset : Z) (self : parser) :
  run (_get_reviews offset) self =
    if truthy (_auth_token self)
    then (fetch_page self offset, self, fetch_page_events self offset)
    else
      match run _auth self with
      | (Err e, self', evs) => (Err e, self', evs)
      | (OK _, self', evs) =>
          (fetch_page self' offset, self', evs ++ fetch_page_events self' offset)
      end.
Proof.
  assert (∀ s, run (log INFO (MsgScanning (offset / REVIEWS_PER_PAGE));;
      self0 ← get_self;
      response ← session_get
        (GetReviews (app_name self0) (app_id self0) (_auth_token self0) offset);
      lift (raise_for_status response);;
      page_json ← lift (response_json response);
      lift (decode_page page_json)) s
    = (fetch_page s offset, s, fetch_page_events s offset)) as Hbody.
  { intros s. unfold fetch_page, fetch_page_events, session_get, log, emit,
      get_self. simpl.
    destruct (session s _) as [e|response]; simpl; [done|].
    destruct (raise_for_status response) as [e|[]]; simpl; [done|].
    destruct (response_json response) as [e|page_json]; simpl; [done|].
    by destruct (decode_page page_json). }
  unfold _get_reviews. rewrite run_auth_required.
  destruct (truthy (_auth_token self)); [apply Hbody|].
  destruct (run _auth self) as [[[e|[]] s] evs]; [done|].
  by rewrite Hbody.
Qed.

Lemma run_get_reviews_page (page : Z) (self : parser) :
  0 < page →
  run (get_reviews_page page) self =
    match run (_get_reviews ((page - 1) * REVIEWS_PER_PAGE)) self with
    | (r, self', evs) => (r ≫= (λ x, OK x.2), self', evs)
    end.
Proof.
  intros Hpage. unfold get_reviews_page.
  destruct (Z.ltb_spec 0 page) as [_|?]; [|lia].
  rewrite run_bind.
  destruct (run (_get_reviews _) self) as [[[e|x] s] evs]; simpl; [done|].
  by rewrite app_nil_r.
Qed.

Lemma run_get_app_rating_count (self : parser) :
  run get_app_rating_count self =
    if truthy (_auth_token self)
    then (fetch_info self ≫= rating_of, self, info_events self)
    else
      match run _auth self with
      | (Err e, self', evs) => (Err e, self', evs)
      | (OK _, self', evs) =>
          (fetch_info self' ≫= rating_of, self', evs ++ info_events self')
      end.
Proof.
  assert (∀ s, run (app_info ← (
        self0 ← get_self;
        response ← session_get
          (GetAppInfo (app_name self0) (app_id self0) (_auth_token self0));
        lift (raise_for_status response);;
        lift (response_json response));
      data ← lift (getitem_str app_info "data");
      data0 ← lift (getitem_0 data);
      app_attributes ← lift (getitem_str data0 "attributes");
      user_rating ← lift (getitem_str app_attributes "userRating");
      rating_count ← lift (getitem_str user_rating "ratingCount");
      mret rating_count) s
    = (fetch_info s ≫= rating_of, s, info_events s)) as Hbody.
  { intros s. unfold fetch_info, rating_of, info_events, session_get, emit,
      get_self. simpl.
    destruct (session s _) as [e|response]; simpl; [done|].
    destruct (raise_for_status response) as [e|[]]; simpl; [done|].
    destruct (response_json response) as [e|app_info]; simpl; [done|].
    destruct (getitem_str app_info "data") as [e|data]; simpl; [done|].
    destruct (getitem_0 data) as [e|data0]; simpl; [done|].
    destruct (getitem_str data0 "attributes") as [e|attrs]; simpl; [done|].
    destruct (getitem_str attrs "userRating") as [e|ur]; simpl; [done|].
    by destruct (getitem_str ur "ratingCount"). }
  unfold get_app_rating_count, get_app_info.
  rewrite run_bind, run_auth_required.
  destruct (truthy (_auth_token self)) eqn:Htok.
  - specialize (Hbody self). rewrite run_bind in Hbody.
    destruct (run (self0 ← get_self; _) self) as [[[e|app_info] s] evs]; done.
  - destruct (run _auth self) as [[[e|[]] s] evs]; [done|].
    specialize (Hbody s). rewrite run_bind in Hbody.
    destruct (run (self0 ← get_self; _) s) as [[[e|app_info] s'] evs'].
    + by inversion Hbody.
    + destruct (run _ s') as [[r s''] evs''].
      inversion Hbody; subst. by rewrite app_assoc.
Qed.

(** ** Units of work *)

Lemma with_token_same (self : parser) : with_token self (_auth_token self) = self.
Proof. by destruct self. Qed.

Lemma fetch_token_with_token (self : parser) (t : json) :
  fetch_token (with_token self t) = fetch_token self.
Proof. reflexivity. Qed.

Lemma run__auth_settled (self : parser) :
  settled self → truthy (_auth_token self) = false →
  (run _auth self).1.2 = self.
Proof.
  intros [Htrue|Hsame] Hfalse; [congruence|].
  rewrite run__auth. destruct (fetch_token self) as [e|t] eqn:Ht; [done|].
  simpl. rewrite (Hsame t eq_refl). apply with_token_same.
Qed.

Lemma get_reviews_page_settled (page : Z) (self : parser) :
  settled self →
  run (get_reviews_page page) self =
    (page_outcome self page, self, unit_events self page).
Proof.
  intros Hs. unfold page_outcome, unit_events.
  assert ((run (get_reviews_page page) self).1.2 = self) as Hself.
  { unfold get_reviews_page. destruct (0 <? page); [|done].
    rewrite run_bind, run__get_reviews.
    destruct (truthy (_auth_token self)) eqn:Htok.
    - by destruct (fetch_page self _).
    - pose proof (run__auth_settled self Hs Htok) as Ha.
      destruct (run _auth self) as [[[e|[]] s] evs]; simpl in Ha; subst; [done|].
      by destruct (fetch_page self _). }
  destruct (run (get_reviews_page page) self) as [[r s] evs].
  simpl in *. by subst.
Qed.

Lemma run_as_completed_loop (completed : list Z) (self : parser) :
  settled self →
  ∀ results,
    run (as_completed_loop completed results) self =
      (OK (results ++ collected self completed), self,
       loop_events self completed).
Proof.
  intros Hs. induction completed as [|page rest IH]; intros results.
  { simpl. by rewrite app_nil_r. }
  cbn [as_completed_loop]. rewrite run_bind.
  unfold try at 1. cbn [run].
  rewrite (get_reviews_page_settled page self Hs).
  unfold collected, loop_events, completion_log.
  cbn [omap list_omap]. rewrite bind_cons.
  destruct (page_outcome self page) as [exc|reviews]; rewrite run_bind.
  - simpl. rewrite (IH results). simpl.
    by rewrite <-!app_assoc.
  - simpl. rewrite (IH (results ++ [(page, reviews)])). simpl.
    by rewrite <-!app_assoc.
Qed.

Lemma settled_after_count (self self' : parser) (rc : json) (evs : list event) :
  run get_app_rating_count self = (OK rc, self', evs) → settled self'.
Proof.
  rewrite run_get_app_rating_count.
  destruct (truthy (_auth_token self)) eqn:Htok.
  - intros [= _ <- _]. by left.
  - rewrite run__auth. destruct (fetch_token self) as [e|t] eqn:Ht; [done|].
    intros [= _ <- _]. right. intros t'.
    rewrite fetch_token_with_token, Ht. by intros [= <-].
Qed.

Lemma run_submit_all (pages : list Z) (self : parser) :
  run (submit_all pages) self = (OK (), self, EvSubmit <$> pages).
Proof.
  induction pages as [|page rest IH]; [done|].
  cbn [submit_all]. rewrite run_bind. cbn [run emit]. by rewrite IH.
Qed.

Ltac run_step :=
  first [rewrite run_submit_all | rewrite run_lift_bind | rewrite run_bind];
  cbn [run log emit mret M_ret get_self mbind result_bind].

Lemma run_parse_parallel (sched : list Z → list Z) (self : parser) :
  run (parse_parallel sched) self =
    match run get_app_rating_count self with
    | (Err e, self', evs) => (Err e, self', evs)
    | (OK rc, self', evs) =>
        match py_int rc with
        | Err e =>
            (Err e, self', evs ++ [EvLog INFO (MsgAppHas (app_name self') rc)])
        | OK z =>
            (OK (orchestrated sched self' z), self',
             evs ++ orchestrator_events sched self' rc z)
        end
    end.
Proof.
  unfold parse_parallel. rewrite run_bind.
  destruct (run get_app_rating_count self) as [[[e|rc] s] evs] eqn:Hrun; [done|].
  apply settled_after_count in Hrun.
  rewrite run_bind. cbn [run get_self].
  rewrite run_bind. cbn [run log emit].
  unfold py_gt. destruct (py_int rc) as [e|z] eqn:Hz.
  { by rewrite run_lift_bind. }
  rewrite run_lift_bind. cbn [mbind result_bind].
  unfold orchestrator_events, orchestrated, planned_pages, clamped_count.
  destruct (MAX_REVIEWS <? z) eqn:Hgt.
  - repeat run_step. cbn [py_floordiv py_int mbind result_bind].
    repeat run_step.
    rewrite (run_as_completed_loop _ _ Hrun). repeat run_step.
    by cbn [app].
  - repeat run_step. unfold py_floordiv. rewrite Hz.
    cbn [mbind result_bind]. repeat run_step.
    rewrite (run_as_completed_loop _ _ Hrun). repeat run_step.
    by cbn [app].
Qed.

(** ** Sorting by page number *)

Lemma insert_by_page_perm x l : insert_by_page x l ≡ₚ x :: l.
Proof.
  induction l as [|y l IH]; [done|]. simpl.
  destruct (x.1 <=? y.1); [done|]. rewrite IH. apply perm_swap.
Qed.

Lemma sort_by_page_perm l : sort_by_page l ≡ₚ l.
Proof.
  induction l as [|x l IH]; [done|]. simpl.
  by rewrite insert_by_page_perm, IH.
Qed.

Lemma insert_by_page_sorted x l :
  StronglySorted page_le l → StronglySorted page_le (insert_by_page x l).
Proof.
  induction 1 as [|y l Hl IH Hy]; simpl.
  { repeat constructor. }
  destruct (Z.leb_spec x.1 y.1) as [Hxy|Hxy].
  - constructor; [by constructor|]. constructor; [done|].
    eapply Forall_impl; [exact Hy|]. unfold page_le. intros; lia.
  - constructor; [done|].
    rewrite insert_by_page_perm. constructor; [|done].
    unfold page_le. lia.
Qed.

Lemma sort_by_page_sorted l : StronglySorted page_le (sort_by_page l).
Proof.
  induction l as [|x l IH]; simpl; [constructor|].
  by apply insert_by_page_sorted.
Qed.

(** ** Reassembly *)

Lemma elem_of_collected self pages x :
  x ∈ collected self pages ↔ x.1 ∈ pages ∧ page_outcome self x.1 = OK x.2.
Proof.
  unfold collected. rewrite list_elem_of_omap. split.
  - intros (page & Hin & Hx).
    destruct (page_outcome self page) eqn:Hp; [done|].
    by injection Hx as <-.
  - intros [Hin Hx]. exists x.1. split; [done|]. rewrite Hx. by destruct x.
Qed.

Lemma seqZ_sorted m n : StronglySorted Z.le (seqZ m n).
Proof.
  remember (Z.to_nat n) as k eqn:Hk. revert m n Hk.
  induction k as [|k IH]; intros m n Hk.
  - rewrite seqZ_nil by lia. constructor.
  - rewrite seqZ_cons by lia. constructor; [apply IH; lia|].
    apply Forall_seqZ. lia.
Qed.

Lemma collected_sorted self pages :
  StronglySorted Z.le pages → StronglySorted page_le (collected self pages).
Proof.
  induction 1 as [|page pages Hs IH Hp]; [constructor|].
  unfold collected. cbn [omap list_omap].
  destruct (page_outcome self page) as [e|reviews]; [exact IH|].
  constructor; [exact IH|].
  apply Forall_forall. intros x [Hx _]%elem_of_collected.
  rewrite Forall_forall in Hp. exact (Hp _ Hx).
Qed.

Lemma sort_collected self completed pages :
  completed ≡ₚ pages → StronglySorted Z.le pages →
  sort_by_page (collected self completed) = collected self pages.
Proof.
  intros Hperm Hsorted.
  apply (StronglySorted_unique_strong page_le).
  - intros [p1 r1] [p2 r2] H1 [_ H2]%elem_of_collected.
    rewrite sort_by_page_perm in H1. apply elem_of_collected in H1 as [_ H1].
    unfold page_le. simpl in *. intros Hle Hge.
    assert (p1 = p2) as -> by lia. congruence.
  - apply sort_by_page_sorted.
  - by apply collected_sorted.
  - rewrite sort_by_page_perm. unfold collected. by rewrite Hperm.
Qed.

Lemma collected_cons self page pages :
  collected self (page :: pages) =
    match page_outcome self page with
    | OK reviews => (page, reviews) :: collected self pages
    | Err _ => collected self pages
    end.
Proof. unfold collected. simpl. by destruct (page_outcome self page). Qed.

Lemma concat_collected self pages :
  concat (collected self pages).*2 = pages ≫= payload self.
Proof.
  induction pages as [|page pages IH]; [done|].
  rewrite collected_cons, bind_cons. unfold payload at 1.
  destruct (page_outcome self page) as [e|reviews]; [exact IH|].
  by rewrite fmap_cons, concat_cons, IH.
Qed.

Lemma orchestrated_reassembles sched self z :
  sched (planned_pages z) ≡ₚ planned_pages z →
  orchestrated sched self z = planned_pages z ≫= payload self.
Proof.
  intros Hperm. unfold orchestrated.
  rewrite (sort_collected self _ (planned_pages z) Hperm); [|apply seqZ_sorted].
  apply concat_collected.
Qed.

Lemma run_sequential_baseline self pages :
  settled self →
  (∀ p, p ∈ pages → is_OK (page_outcome self p) = true) →
  (run (sequential_baseline pages) self).1 = (OK (pages ≫= payload self), self).
Proof.
  intros Hs. induction pages as [|page pages IH]; intros Hok; [done|].
  cbn [sequential_baseline]. rewrite run_bind.
  rewrite (get_reviews_page_settled page self Hs).
  assert (is_OK (page_outcome self page) = true) as Hpage by (apply Hok; left).
  rewrite bind_cons. unfold payload at 1.
  destruct (page_outcome self page) as [e|reviews]; [done|].
  assert (∀ p, p ∈ pages → is_OK (page_outcome self p) = true) as Hrest.
  { intros p Hp. apply Hok. by right. }
  specialize (IH Hrest). rewrite run_bind.
  destruct (run (sequential_baseline pages) self) as [[r s] evs].
  simpl in IH. by injection IH as -> ->.
Qed.

Lemma bind_payload_skip self pages k :
  payload self k = [] →
  pages ≫= payload self = filter (λ p, p ≠ k) pages ≫= payload self.
Proof.
  intros Hk. induction pages as [|page pages IH]; [done|].
  rewrite filter_cons, bind_cons. destruct (decide (page ≠ k)) as [Hne|Heq].
  - by rewrite bind_cons, IH.
  - apply dec_stable in Heq. subst. by rewrite Hk.
Qed.

Lemma length_bind_payload self pages :
  length (pages ≫= payload self) = sum_list (length ∘ payload self <$> pages).
Proof.
  induction pages as [|page pages IH]; [done|].
  rewrite bind_cons, length_app, IH. done.
Qed.

(** ** Which events each step records *)

Lemma auth_events (self : parser) :
  Forall (λ ev, auth_event ev = true) (run _auth self).2.
Proof.
  rewrite run__auth. destruct (fetch_token self); simpl; repeat constructor.
Qed.

Lemma count_events (self : parser) :
  Forall (λ ev, count_event ev = true) (run get_app_rating_count self).2.
Proof.
  rewrite run_get_app_rating_count.
  destruct (truthy (_auth_token self)); [repeat constructor|].
  pose proof (auth_events self) as Ha.
  destruct (run _auth self) as [[[e|[]] s] evs]; simpl in *.
  - eapply Forall_impl; [exact Ha|]. intros ev Hev. unfold count_event.
    rewrite Hev. by destruct ev as [[]| |].
  - apply Forall_app. split; [|repeat constructor].
    eapply Forall_impl; [exact Ha|]. intros ev Hev. unfold count_event.
    rewrite Hev. by destruct ev as [[]| |].
Qed.

Lemma get_reviews_events (offset : Z) (self : parser) :
  Forall (λ ev, unit_event offset ev = true) (run (_get_reviews offset) self).2.
Proof.
  assert (∀ s, Forall (λ ev, unit_event offset ev = true)
                 (fetch_page_events s offset)) as Hpage.
  { intros s. unfold fetch_page_events. repeat constructor; simpl; lia. }
  rewrite run__get_reviews.
  destruct (truthy (_auth_token self)); [apply Hpage|].
  pose proof (auth_events self) as Ha.
  assert (Forall (λ ev, unit_event offset ev = true) (run _auth self).2) as Hu.
  { eapply Forall_impl; [exact Ha|]. intros ev Hev. unfold unit_event.
    rewrite Hev. by destruct ev as [[]|[] []|]. }
  destruct (run _auth self) as [[[e|[]] s] evs]; simpl in *; [done|].
  apply Forall_app. split; [done|apply Hpage].
Qed.

Lemma unit_events_spec (self : parser) (page : Z) :
  Forall (λ ev, unit_event ((page - 1) * REVIEWS_PER_PAGE) ev = true)
    (unit_events self page).
Proof.
  unfold unit_events, get_reviews_page. destruct (0 <? page); [|constructor].
  rewrite run_bind.
  pose proof (get_reviews_events ((page - 1) * REVIEWS_PER_PAGE) self) as H.
  destruct (run (_get_reviews _) self) as [[[e|x] s] evs]; simpl in *; [done|].
  by rewrite app_nil_r.
Qed.

(** ** The orchestrator against the sequential baseline *)

(** C1: when every page fetch succeeds, the reviews [parse_parallel]
    returns are those of fetching pages 1..N one after the other and
    concatenating, whatever the order in which the futures complete; their
    number is the sum of the per-page counts. *)
Theorem parallel_equals_sequential sched self rc z self1 evs :
  run get_app_rating_count self = (OK rc, self1, evs) →
  py_int rc = OK z →
  sched (planned_pages z) ≡ₚ planned_pages z →
  (∀ p, p ∈ planned_pages z → is_OK (page_outcome self1 p) = true) →
  ∃ reviews,
    (run (parse_parallel sched) self).1.1 = OK reviews ∧
    (run (sequential_baseline (planned_pages z)) self1).1.1 = OK reviews ∧
    length reviews = sum_list (length ∘ payload self1 <$> planned_pages z).
Proof.
  intros Hcount Hz Hperm Hok.
  exists (planned_pages z ≫= payload self1). split; [|split].
  - rewrite run_parse_parallel, Hcount, Hz. simpl.
    f_equal. by apply orchestrated_reassembles.
  - rewrite run_sequential_baseline; [done| |done].
    by eapply settled_after_count.
  - apply length_bind_payload.
Qed.

Lemma parallel_equals_sequential_witness :
  ∃ reviews,
    (run (parse_parallel reverse) (sample_parser 25 (-1))).1.1 = OK reviews ∧
    (run (sequential_baseline (planned_pages 25))
       (with_token (sample_parser 25 (-1)) (JStr "tok"))).1.1 = OK reviews ∧
    length reviews = 4%nat.
Proof.
  destruct (parallel_equals_sequential reverse (sample_parser 25 (-1))
              (JInt 25) 25 (with_token (sample_parser 25 (-1)) (JStr "tok"))
              [EvLog INFO MsgAuthorizing; EvRequest (GetAppPage "app" 1);
               EvLog INFO MsgAuthorized;
               EvRequest (GetAppInfo "app" 1 (JStr "tok"))])
    as (reviews & Hpar & Hseq & Hlen).
  - vm_compute. reflexivity.
  - reflexivity.
  - apply reverse_Permutation.
  - intros p Hp. change (planned_pages 25) with (seqZ 1 2) in Hp.
    apply elem_of_seqZ in Hp.
    assert (p = 1 ∨ p = 2) as [-> | ->] by lia; vm_compute; reflexivity.
  - exists reviews. split; [exact Hpar|]. split; [exact Hseq|].
    rewrite Hlen. vm_compute. reflexivity.
Defined.

(** ** Counting log records and requests *)

Lemma count_where_app f evs1 evs2 :
  count_where f (evs1 ++ evs2) = (count_where f evs1 + count_where f evs2)%nat.
Proof. unfold count_where. by rewrite filter_app, length_app. Qed.

Lemma count_where_none f evs :
  Forall (λ ev, f ev = false) evs → count_where f evs = 0%nat.
Proof.
  unfold count_where. induction 1 as [|ev evs Hev _ IH]; [done|].
  rewrite filter_cons_False; [done|]. by rewrite Hev.
Qed.

Lemma count_page_once (k : Z) (pages : list Z) :
  NoDup pages → k ∈ pages → length (filter (λ p, p = k) pages) = 1%nat.
Proof.
  induction 1 as [|page pages Hnotin Hnd IH]; intros Hin.
  { by apply elem_of_nil in Hin. }
  destruct (decide (page = k)) as [->|Hne].
  - rewrite filter_cons_True by done. simpl. f_equal.
    clear IH Hin Hnd. induction pages as [|p pages IH]; [done|].
    apply not_elem_of_cons in Hnotin as [Hne Hnotin].
    rewrite filter_cons_False by done. by apply IH.
  - rewrite filter_cons_False by done. apply IH.
    apply elem_of_cons in Hin as [->|Hin]; done.
Qed.

Lemma unit_events_shape (self : parser) (page : Z) :
  ∃ pre tail,
    unit_events self page = pre ++ tail ∧
    Forall (λ ev, auth_event ev = true) pre ∧
    (tail = [] ∨
     ∃ s, tail = fetch_page_events s ((page - 1) * REVIEWS_PER_PAGE)).
Proof.
  unfold unit_events, get_reviews_page.
  destruct (0 <? page); [|by exists [], []; eauto].
  rewrite run_bind, run__get_reviews.
  destruct (truthy (_auth_token self)).
  - exists [], (fetch_page_events self ((page - 1) * REVIEWS_PER_PAGE)).
    split; [|split; [done|by eauto]].
    destruct (fetch_page self _); simpl; by rewrite ?app_nil_r.
  - pose proof (auth_events self) as Ha.
    destruct (run _auth self) as [[[e|[]] s] evs]; simpl in Ha.
    + exists evs, []. rewrite app_nil_r. eauto.
    + exists evs, (fetch_page_events s ((page - 1) * REVIEWS_PER_PAGE)).
      split; [|split; [done|by eauto]].
      destruct (fetch_page s _); simpl; by rewrite ?app_nil_r.
Qed.

Lemma unit_events_no_error (self : parser) (page k : Z) :
  count_where (error_about k) (unit_events self page) = 0%nat.
Proof.
  apply count_where_none.
  pose proof (unit_events_spec self page) as Hall.
  eapply Forall_impl; [exact Hall|]. by intros [[]|[] []|].
Qed.

Lemma unit_events_requests (self : parser) (page k : Z) :
  (count_where (request_at ((k - 1) * REVIEWS_PER_PAGE)) (unit_events self page)
   ≤ if decide (page = k) then 1 else 0)%nat.
Proof.
  destruct (decide (page = k)) as [->|Hne].
  - destruct (unit_events_shape self k) as (pre & tail & -> & Hpre & Htail).
    rewrite count_where_app, (count_where_none _ pre).
    + destruct Htail as [->|[s ->]]; [unfold count_where; simpl; lia|].
      unfold count_where, fetch_page_events.
      rewrite filter_cons_False by done. simpl. apply length_filter.
    + eapply Forall_impl; [exact Hpre|]. by intros [[]|[] []|].
  - rewrite count_where_none; [done|].
    pose proof (unit_events_spec self page) as Hall.
    eapply Forall_impl; [exact Hall|]. unfold REVIEWS_PER_PAGE.
    intros [[]|[] []|]; simpl; try done. lia.
Qed.

Lemma loop_events_errors (self : parser) (k : Z) (pages : list Z) :
  is_OK (page_outcome self k) = false →
  (∀ p, p ∈ pages → p ≠ k → is_OK (page_outcome self p) = true) →
  count_where (error_about k) (loop_events self pages)
    = length (filter (λ p, p = k) pages).
Proof.
  intros Hk. induction pages as [|page pages IH]; intros Hok; [done|].
  unfold loop_events in *. rewrite bind_cons, !count_where_app.
  rewrite unit_events_no_error, IH by (intros p Hp; apply Hok; by right).
  unfold completion_log. destruct (decide (page = k)) as [->|Hne].
  - rewrite filter_cons_True by done.
    destruct (page_outcome self k); [|done].
    unfold count_where. rewrite filter_cons_True; [done|].
    simpl. lia.
  - rewrite filter_cons_False by done.
    specialize (Hok page ltac:(by left) Hne).
    by destruct (page_outcome self page).
Qed.

Lemma loop_events_requests (self : parser) (k : Z) (pages : list Z) :
  (count_where (request_at ((k - 1) * REVIEWS_PER_PAGE)) (loop_events self pages)
   ≤ length (filter (λ p, p = k) pages))%nat.
Proof.
  induction pages as [|page pages IH]; [done|].
  unfold loop_events in *. rewrite bind_cons, !count_where_app.
  pose proof (unit_events_requests self page k) as Hu.
  assert (count_where (request_at ((k - 1) * REVIEWS_PER_PAGE))
            [completion_log self page] = 0%nat) as ->.
  { unfold completion_log. by destruct (page_outcome self page). }
  destruct (decide (page = k)) as [->|Hne].
  - rewrite filter_cons_True by done. simpl. lia.
  - rewrite filter_cons_False by done. lia.
Qed.

(** C2: when exactly page [k] fails, [parse_parallel] still returns, and
    what it returns is the sequential baseline over the pages other than
    [k]: page [k] contributes nothing and every other page contributes
    what it would have.  The failure is logged once, at error level, and
    page [k] is requested at most once. *)
Theorem failed_page_is_dropped sched self rc z self1 evs k :
  run get_app_rating_count self = (OK rc, self1, evs) →
  py_int rc = OK z →
  sched (planned_pages z) ≡ₚ planned_pages z →
  k ∈ planned_pages z →
  is_OK (page_outcome self1 k) = false →
  (∀ p, p ∈ planned_pages z → p ≠ k → is_OK (page_outcome self1 p) = true) →
  ∃ reviews,
    (run (parse_parallel sched) self).1.1 = OK reviews ∧
    (run (sequential_baseline (filter (λ p, p ≠ k) (planned_pages z)))
       self1).1.1 = OK reviews ∧
    (∀ r, (k, r) ∉ collected self1 (sched (planned_pages z))) ∧
    (∀ p, p ∈ planned_pages z → p ≠ k →
       ∃ r, page_outcome self1 p = OK r ∧
            (p, r) ∈ collected self1 (sched (planned_pages z))) ∧
    count_where (error_about k) (run (parse_parallel sched) self).2 = 1%nat ∧
    (count_where (request_at ((k - 1) * REVIEWS_PER_PAGE))
       (run (parse_parallel sched) self).2 ≤ 1)%nat.
Proof.
  intros Hcount Hz Hperm Hk Hfail Hok.
  assert (length (filter (λ p, p = k) (sched (planned_pages z))) = 1%nat)
    as Honce.
  { rewrite Hperm. apply count_page_once; [apply NoDup_seqZ|done]. }
  pose proof (count_events self) as Hevs. rewrite Hcount in Hevs.
  exists (planned_pages z ≫= payload self1).
  split; [|split; [|split; [|split; [|split]]]].
  - rewrite run_parse_parallel, Hcount, Hz. simpl.
    f_equal. by apply orchestrated_reassembles.
  - rewrite run_sequential_baseline.
    + simpl. f_equal. symmetry. apply bind_payload_skip.
      unfold payload. by destruct (page_outcome self1 k).
    + by eapply settled_after_count.
    + intros p [Hne Hp]%list_elem_of_filter. by apply Hok.
  - intros r [_ Hr]%elem_of_collected. simpl in Hr. by rewrite Hr in Hfail.
  - intros p Hp Hne. specialize (Hok p Hp Hne).
    destruct (page_outcome self1 p) as [e|r] eqn:Hout; [done|].
    exists r. split; [done|]. apply elem_of_collected. simpl.
    by rewrite Hperm.
  - rewrite run_parse_parallel, Hcount, Hz. cbn [snd].
    unfold orchestrator_events. fold (planned_pages z).
    rewrite !count_where_app, loop_events_errors, Honce; [|done|].
    + rewrite (count_where_none _ evs).
      * rewrite (count_where_none _ (EvSubmit <$> _))
          by (apply Forall_fmap, Forall_true; done).
        by destruct (MAX_REVIEWS <? z).
      * eapply Forall_impl; [exact Hevs|]. by intros [[]|[] []|].
    + intros p Hp. apply Hok. by rewrite <-Hperm.
  - rewrite run_parse_parallel, Hcount, Hz. cbn [snd].
    unfold orchestrator_events. fold (planned_pages z).
    rewrite !count_where_app.
    pose proof (loop_events_requests self1 k (sched (planned_pages z))) as Hl.
    rewrite Honce in Hl.
    set (c := count_where _ (loop_events _ _)) in *.
    rewrite (count_where_none _ evs).
    + rewrite (count_where_none _ (EvSubmit <$> _))
        by (apply Forall_fmap, Forall_true; done).
      destruct (MAX_REVIEWS <? z); unfold count_where; simpl; lia.
    + eapply Forall_impl; [exact Hevs|]. by intros [[]|[] []|].
Qed.

Lemma failed_page_is_dropped_witness :
  ∃ reviews,
    (run (parse_parallel reverse) (sample_parser 35 10)).1.1 = OK reviews ∧
    (run (sequential_baseline [1; 3])
       (with_token (sample_parser 35 10) (JStr "tok"))).1.1 = OK reviews.
Proof.
  destruct (failed_page_is_dropped reverse (sample_parser 35 10)
              (JInt 35) 35 (with_token (sample_parser 35 10) (JStr "tok"))
              [EvLog INFO MsgAuthorizing; EvRequest (GetAppPage "app" 1);
               EvLog INFO MsgAuthorized;
               EvRequest (GetAppInfo "app" 1 (JStr "tok"))] 2)
    as (reviews & Hpar & Hseq & _).
  - vm_compute. reflexivity.
  - reflexivity.
  - apply reverse_Permutation.
  - vm_compute. right. left.
  - vm_compute. reflexivity.
  - intros p Hp Hne. change (planned_pages 35) with (seqZ 1 3) in Hp.
    apply elem_of_seqZ in Hp.
    assert (p = 1 ∨ p = 3) as [-> | ->] by lia; vm_compute; reflexivity.
  - exists reviews. split; [exact Hpar|exact Hseq].
Defined.

(** ** Page numbers and offsets *)

(** C9: the unit of work for page [p ≥ 1] is the page fetch at offset
    [(p - 1) * 10]: [get_reviews_page p] runs [_get_reviews] at that offset
    and keeps its reviews, and every reviews request it sends carries that
    offset. *)
Theorem get_reviews_page_offset (page : Z) (self : parser) :
  1 ≤ page →
  run (get_reviews_page page) self =
    (match run (_get_reviews ((page - 1) * 10)) self with
     | (r, self', evs) => (r ≫= (λ x, OK x.2), self', evs)
     end) ∧
  (∀ name id token offset,
     EvRequest (GetReviews name id token offset) ∈ unit_events self page →
     offset = (page - 1) * 10).
Proof.
  intros Hpage. split.
  - apply run_get_reviews_page. lia.
  - intros name id token offset Hin.
    pose proof (unit_events_spec self page) as Hall.
    rewrite Forall_forall in Hall. specialize (Hall _ Hin).
    simpl in Hall. unfold REVIEWS_PER_PAGE in Hall. lia.
Qed.

Lemma get_reviews_page_offset_witness :
  EvRequest (GetReviews "app" 1 (JStr "tok") 20)
    ∈ unit_events (sample_parser 35 (-1)) 3 ∧
  ∀ name id token offset,
    EvRequest (GetReviews name id token offset)
      ∈ unit_events (sample_parser 35 (-1)) 3 →
    offset = 20.
Proof.
  split.
  - vm_compute. do 4 right. left.
  - apply (get_reviews_page_offset 3 (sample_parser 35 (-1))). lia.
Defined.

(** C10: [get_reviews_page] asserts [page > 0].  For [page ≥ 1] the
    assertion passes, the method goes on to [_get_reviews] and the offset
    is not negative; for [page ≤ 0] it raises [AssertionError] with the
    parser untouched and nothing requested or logged. *)
Theorem get_reviews_page_assertion (page : Z) (self : parser) :
  (1 ≤ page →
     0 ≤ (page - 1) * REVIEWS_PER_PAGE ∧
     run (get_reviews_page page) self =
       run (r ← _get_reviews ((page - 1) * REVIEWS_PER_PAGE); mret r.2) self) ∧
  (page ≤ 0 →
     run (get_reviews_page page) self = (Err AssertionError, self, [])).
Proof.
  unfold get_reviews_page. split; intros Hpage.
  - split; [unfold REVIEWS_PER_PAGE; lia|].
    by destruct (Z.ltb_spec 0 page); [|lia].
  - by destruct (Z.ltb_spec 0 page); [lia|].
Qed.

Lemma get_reviews_page_assertion_witness :
  (0 ≤ (3 - 1) * REVIEWS_PER_PAGE ∧
   run (get_reviews_page 3) (sample_parser 35 (-1)) =
     run (r ← _get_reviews ((3 - 1) * REVIEWS_PER_PAGE); mret r.2)
       (sample_parser 35 (-1))) ∧
  run (get_reviews_page 0) (sample_parser 35 (-1)) =
    (Err AssertionError, sample_parser 35 (-1), []).
Proof.
  split.
  - apply (get_reviews_page_assertion 3 (sample_parser 35 (-1))). lia.
  - apply (get_reviews_page_assertion 0 (sample_parser 35 (-1))). lia.
Defined.

(** ** Decoding records *)

Lemma bind_OK {A B} (r : result A) (f : A → result B) (b : B) :
  r ≫= f = OK b → ∃ a, r = OK a ∧ f a = OK b.
Proof. destruct r as [e|a]; [done|]. by exists a. Qed.

(** C6: a decoded review carries a developer response exactly when the
    record's attributes hold a [developerResponse] object, and then its
    three fields are that object's [id], [body] and [modified]; otherwise
    the field is absent. *)
Theorem developer_response_iff_present (record : json) (rv : Review) :
  decode_review record = OK rv →
  ∃ attrs,
    getitem_str record "attributes" = OK (JObj attrs) ∧
    (is_Some (developer_response rv) ↔
       ∃ o, attrs !! "developerResponse" = Some (JObj o)) ∧
    (∀ d, developer_response rv = Some d →
       ∃ o, attrs !! "developerResponse" = Some (JObj o) ∧
            o !! "id" = Some (developer_id d) ∧
            o !! "body" = Some (body d) ∧
            o !! "modified" = Some (modified d)) ∧
    (developer_response rv = None →
       attrs !! "developerResponse" = None ∨
       attrs !! "developerResponse" = Some JNull).
Proof.
  unfold decode_review. intros Hdec.
  destruct (getitem_str record "attributes") as [e|review_attrs] eqn:Hattrs;
    [done|]. simpl in Hdec.
  destruct (decode_developer_response review_attrs) as [e|dr] eqn:Hdr;
    [done|]. simpl in Hdec.
  assert (developer_response rv = dr) as Hrv.
  { do 6 (apply bind_OK in Hdec as (? & _ & Hdec)). by injection Hdec as <-. }
  clear Hdec. rewrite Hrv. clear Hrv rv.
  unfold decode_developer_response in Hdr.
  destruct review_attrs as [| | | | |attrs]; try done.
  exists attrs. split; [done|]. simpl in Hdr.
  destruct (attrs !! "developerResponse") as [v|] eqn:Hv; simpl in Hdr.
  - destruct v as [| | | | |o]; simpl in Hdr; try done.
    + injection Hdr as <-. split; [|split]; [| |by right].
      * split; [by intros [? ?]|]. by intros [o [=]].
      * done.
    + destruct (o !! "id") as [vid|] eqn:Hid; [|done].
      destruct (o !! "body") as [vb|] eqn:Hb; [|done].
      destruct (o !! "modified") as [vm|] eqn:Hm; [|done].
      simpl in Hdr. injection Hdr as <-. split; [|split]; [| |done].
      * split; [by exists o|by eexists].
      * intros d [= <-]. by exists o.
  - injection Hdr as <-. split; [|split]; [| |by left].
    + split; [by intros [? ?]|]. by intros [o [=]].
    + done.
Qed.

Lemma developer_response_iff_present_witness :
  ∃ attrs,
    getitem_str (sample_record "b" 5 (Some "thanks")) "attributes"
      = OK (JObj attrs) ∧
    ∃ o, attrs !! "developerResponse" = Some (JObj o) ∧
         o !! "body" = Some (JStr "thanks").
Proof.
  destruct (developer_response_iff_present
              (sample_record "b" 5 (Some "thanks"))
              (mkReview (JStr "b") (JStr "t") (JStr "text") (JBool false)
                 (JStr "2020-01-01") (JInt 5)
                 (Some (mkDeveloperResponse (JInt 7) (JStr "thanks")
                          (JStr "2020-01-02")))))
    as (attrs & Hattrs & _ & Hsome & _).
  - vm_compute. reflexivity.
  - exists attrs. split; [exact Hattrs|].
    destruct (Hsome _ eq_refl) as (o & Ho & _ & Hb & _).
    exists o. split; [exact Ho|exact Hb].
Defined.

Lemma decode_review_lacks (record : json) (k : string) :
  lacks record k → k ∈ required_fields → ∃ e, decode_review record = Err e.
Proof.
  intros (ro & attrs & -> & Hattrs & Hk) Hin.
  unfold decode_review.
  assert (getitem_str (JObj ro) "attributes" = OK (JObj attrs)) as ->.
  { simpl. by rewrite Hattrs. }
  cbn [mbind result_bind].
  destruct (decode_developer_response (JObj attrs)); simpl; [by eexists|].
  unfold required_fields in Hin. rewrite !elem_of_cons in Hin.
  repeat (match goal with
          | |- context [attrs !! ?key] =>
              destruct (attrs !! key) eqn:?; simpl; [|by eexists]
          end).
  rewrite elem_of_nil in Hin.
  destruct Hin as [->|[->|[->|[->|[->|[->|[]]]]]]]; congruence.
Qed.

Lemma decode_loop_failing (items : list json) (record : json) :
  record ∈ items → is_OK (decode_review record) = false →
  ∀ acc, is_OK (decode_loop items acc) = false.
Proof.
  intros Hin Hfail. induction items as [|item items IH]; intros acc.
  { by apply elem_of_nil in Hin. }
  simpl. apply elem_of_cons in Hin as [<-|Hin].
  - by destruct (decode_review record).
  - destruct (decode_review item); [done|]. simpl. by apply IH.
Qed.

Lemma decode_loop_complete (items : list json) :
  ∀ acc reviews,
    decode_loop items acc = OK reviews →
    ∃ decoded,
      reviews = acc ++ decoded ∧
      Forall2 (λ item rv, decode_review item = OK rv) items decoded.
Proof.
  induction items as [|item items IH]; intros acc reviews Hloop; simpl in Hloop.
  { injection Hloop as <-. exists []. by rewrite app_nil_r. }
  apply bind_OK in Hloop as (rv & Hrv & Hloop).
  apply IH in Hloop as (decoded & -> & Hall).
  exists (rv :: decoded). rewrite <-app_assoc. split; [done|by constructor].
Qed.

Lemma decode_page_failing (page_json : json) (records : list json)
    (record : json) (k : string) :
  getitem_str page_json "data" = OK (JArr records) →
  record ∈ records → k ∈ required_fields → lacks record k →
  is_OK (decode_page page_json) = false.
Proof.
  intros Hdata Hin Hk Hlacks. unfold decode_page. rewrite Hdata. simpl.
  destruct (decode_review_lacks record k Hlacks Hk) as [e He].
  pose proof (decode_loop_failing records record Hin) as Hloop.
  rewrite He in Hloop. specialize (Hloop eq_refl []).
  by destruct (decode_loop records []).
Qed.

Lemma decode_loop_all (items : list json) (decoded : list Review) :
  Forall2 (λ item rv, decode_review item = OK rv) items decoded →
  ∀ acc, decode_loop items acc = OK (acc ++ decoded).
Proof.
  induction 1 as [|item rv items decoded Hrv _ IH]; intros acc; simpl.
  - by rewrite app_nil_r.
  - rewrite Hrv. simpl. by rewrite IH, <-app_assoc.
Qed.

Lemma after_auth_same_app (self : parser) :
  app_name (after_auth self) = app_name self ∧
  app_id (after_auth self) = app_id self ∧
  session (after_auth self) = session self.
Proof.
  unfold after_auth. destruct (truthy (_auth_token self)); [done|].
  by destruct (fetch_token self).
Qed.

(** C5: a page with a record that lacks a required field fails as a whole:
    its body does not decode, the unit of work for it raises and the
    orchestrator's loop adds nothing to [results] for it; and a page
    decodes exactly when each of its records does, yielding one review per
    record, each the decoding of its record.  The response is the one the
    store gives to the request the unit of work sends, with the token the
    parser holds once authenticated. *)
Theorem missing_field_fails_page (self : parser) (page : Z) (resp : response)
    (page_json : json) (records : list json) (record : json) (k : string) :
  0 < page →
  session self
    (GetReviews (app_name self) (app_id self) (_auth_token (after_auth self))
       ((page - 1) * REVIEWS_PER_PAGE)) = OK resp →
  json_body resp = Some page_json →
  getitem_str page_json "data" = OK (JArr records) →
  record ∈ records → k ∈ required_fields → lacks record k →
  is_OK (decode_page page_json) = false ∧
  (∃ e, page_outcome self page = Err e) ∧
  (∀ results, (run (as_completed_loop [page] results) self).1.1 = OK results) ∧
  (∀ pj recs reviews,
     getitem_str pj "data" = OK (JArr recs) →
     ((∃ next, decode_page pj = OK (next, reviews)) ↔
      Forall2 (λ item rv, decode_review item = OK rv) recs reviews)).
Proof.
  intros Hpage Hsrv Hbody Hdata Hin Hk Hlacks.
  pose proof (decode_page_failing _ _ _ _ Hdata Hin Hk Hlacks) as Hdecode.
  assert (is_OK (fetch_page (after_auth self) ((page - 1) * REVIEWS_PER_PAGE))
          = false) as Hfetch.
  { destruct (after_auth_same_app self) as (Hn & Hi & Hs).
    unfold fetch_page. rewrite Hn, Hi, Hs, Hsrv. simpl.
    destruct (raise_for_status resp) as [e|[]]; [done|]. simpl.
    unfold response_json. rewrite Hbody. simpl.
    by destruct (decode_page page_json). }
  assert (∃ e, page_outcome self page = Err e) as [e He].
  { unfold page_outcome. rewrite run_get_reviews_page, run__get_reviews by done.
    unfold after_auth in Hfetch.
    destruct (truthy (_auth_token self)).
    - destruct (fetch_page self _); [by eexists|done].
    - rewrite run__auth. destruct (fetch_token self) as [e|t]; [by eexists|].
      destruct (fetch_page (with_token self t) _); [by eexists|done]. }
  split; [done|]. split; [by exists e|]. split.
  - intros results. cbn [as_completed_loop]. rewrite run_bind.
    unfold try at 1. cbn [run]. unfold page_outcome in He.
    destruct (run (get_reviews_page page) self) as [[r s] evs].
    simpl in He. subst r. by repeat run_step.
  - intros pj recs reviews Hrecs. unfold decode_page. rewrite Hrecs. simpl.
    split.
    + intros [next Hdec].
      apply bind_OK in Hdec as (decoded & Hloop & Hdec).
      apply bind_OK in Hdec as (nxt & _ & Hdec). injection Hdec as _ <-.
      by apply decode_loop_complete in Hloop as (? & -> & ?).
    + intros Hall. rewrite (decode_loop_all recs reviews Hall []). simpl.
      destruct pj as [| | | | |o]; try done. simpl. by eexists.
Qed.

Lemma missing_field_fails_page_witness :
  (∃ e, page_outcome
          (AppStoreParser (guarded_page_srv page_with_untitled) "app" 1) 1
        = Err e) ∧
  ∀ results,
    (run (as_completed_loop [1] results)
       (AppStoreParser (guarded_page_srv page_with_untitled) "app" 1)).1.1
    = OK results.
Proof.
  destruct (missing_field_fails_page
              (AppStoreParser (guarded_page_srv page_with_untitled) "app" 1)
              1 (mkResponse 200 (Some page_with_untitled) MetaMissing)
              page_with_untitled
              [sample_record "a" 5 None; untitled_record]
              untitled_record "title") as (_ & Hfail & Hloop & _).
  - lia.
  - reflexivity.
  - reflexivity.
  - vm_compute. reflexivity.
  - right. left.
  - unfold required_fields. do 5 right. left.
  - eexists _, _. split; [reflexivity|]. split; vm_compute; reflexivity.
  - split; [exact Hfail|exact Hloop].
Defined.

(** ** The sink *)

Lemma dict_to_list_review (r : Review) :
  dict_to_list fieldnames (delete "developer_response" (review_dict r))
    = OK (row_of r).
Proof. destruct r. vm_compute. reflexivity. Qed.

Lemma write_line_review (r : Review) :
  write_line (row_of r) =
    if review_encodable r then OK () else Err UnicodeEncodeError.
Proof. reflexivity. Qed.

Lemma write_rows_spec (reviews : list Review) :
  ∀ f, write_rows reviews f =
         (if forallb review_encodable reviews then OK ()
          else Err UnicodeEncodeError,
          f ++ (row_of <$> encodable_prefix reviews)).
Proof.
  induction reviews as [|r reviews IH]; intros f.
  { simpl. by rewrite app_nil_r. }
  cbn [write_rows forallb encodable_prefix].
  rewrite dict_to_list_review, write_line_review.
  destruct (review_encodable r).
  - rewrite IH, fmap_cons. by rewrite <-app_assoc.
  - simpl. by rewrite app_nil_r.
Qed.

Lemma encodable_prefix_all (reviews : list Review) :
  forallb review_encodable reviews = true → encodable_prefix reviews = reviews.
Proof.
  induction reviews as [|r reviews IH]; [done|]. simpl.
  intros [Hr Hrest]%andb_true_iff. by rewrite Hr, IH.
Qed.

Lemma encodable_prefix_is_prefix (reviews : list Review) :
  ∃ rest, reviews = encodable_prefix reviews ++ rest.
Proof.
  induction reviews as [|r reviews [rest IH]]; [by exists []|]. simpl.
  destruct (review_encodable r).
  - exists rest. simpl. by f_equal.
  - by eexists.
Qed.

(** C7, as stated: not every review gets its row.  The author name of the
    first review is a lone surrogate; writing its row raises
    [UnicodeEncodeError] and the file is left with the header alone, the
    second review unwritten. *)
Lemma surrogate_review_not_written : ¬ writes_one_row_per_review.
Proof.
  intros Hclaim.
  specialize (Hclaim sample_env [surrogate_review; sample_review "b" None]
                (Path "/tmp/out.csv") ∅ eq_refl).
  vm_compute in Hclaim. discriminate Hclaim.
Qed.

(** C7, amended: [write_reviews] leaves at the destination the header row
    [user_name,title,review,is_edited,last_update,rating] followed by one
    row for each review up to the first whose text cannot be encoded in
    UTF-8, in the order given, each row holding the six scalar fields and
    nothing of the developer response; whatever the destination held
    before is replaced.  When every review can be encoded it returns and
    every review has its row; otherwise it raises [UnicodeEncodeError]. *)
Theorem write_reviews_rows (env : environ) (reviews : list Review)
    (path : ppath) (files : gmap (list string) csv_file) :
  can_open_w env (os_file env path) = true →
  ∃ r files' evs,
    write_reviews env reviews path files = (r, files', evs) ∧
    files' !! os_file env path =
      Some (header_row fieldnames :: (row_of <$> encodable_prefix reviews)) ∧
    (∃ rest, reviews = encodable_prefix reviews ++ rest) ∧
    (forallb review_encodable reviews = true →
       r = OK () ∧ encodable_prefix reviews = reviews) ∧
    (forallb review_encodable reviews = false → r = Err UnicodeEncodeError) ∧
    (∀ other, other ≠ os_file env path → files' !! other = files !! other) ∧
    header_row fieldnames =
      (λ name, Val (JStr name)) <$>
        ["user_name"; "title"; "review"; "is_edited"; "last_update"; "rating"] ∧
    String.concat "," fieldnames
      = "user_name,title,review,is_edited,last_update,rating" ∧
    (∀ r d, row_of r =
            row_of (mkReview (user_name r) (title r) (review r) (is_edited r)
                      (last_update r) (rating r) d)).
Proof.
  intros Hopen. unfold write_reviews. rewrite Hopen, write_rows_spec.
  pose proof (encodable_prefix_all reviews) as Hall.
  destruct (forallb review_encodable reviews).
  - eexists _, _, _. split; [reflexivity|].
    split; [apply lookup_insert_eq|].
    split; [apply encodable_prefix_is_prefix|].
    split; [auto|]. split; [done|]. split; [|done].
    intros other Hother. by rewrite lookup_insert_ne.
  - eexists _, _, _. split; [reflexivity|].
    split; [apply lookup_insert_eq|].
    split; [apply encodable_prefix_is_prefix|].
    split; [done|]. split; [done|]. split; [|done].
    intros other Hother. by rewrite lookup_insert_ne.
Qed.

Lemma write_reviews_rows_witness :
  ∃ r files' evs,
    write_reviews sample_env
      [sample_review "a" None;
       sample_review "b" (Some (mkDeveloperResponse (JInt 7) (JStr "thanks")
                                  (JStr "2020-01-02")))]
      (Path "/tmp/out.csv") {[ ["tmp"; "out.csv"] := [[Val JNull]] ]}
      = (r, files', evs) ∧
    r = OK () ∧
    files' !! ["tmp"; "out.csv"] =
      Some [header_row fieldnames;
            row_of (sample_review "a" None);
            row_of (sample_review "b" None)].
Proof.
  destruct (write_reviews_rows sample_env
              [sample_review "a" None;
               sample_review "b" (Some (mkDeveloperResponse (JInt 7)
                                          (JStr "thanks") (JStr "2020-01-02")))]
              (Path "/tmp/out.csv") {[ ["tmp"; "out.csv"] := [[Val JNull]] ]})
    as (r & files' & evs & Hrun & Hfile & _ & Hok & _).
  - reflexivity.
  - exists r, files', evs. split; [exact Hrun|].
    split; [apply Hok; reflexivity|exact Hfile].
Defined.

(** ** The page range *)

Lemma omap_none {A B} (f : A → option B) (l : list A) :
  Forall (λ x, f x = None) l → omap f l = [].
Proof.
  induction 1 as [|x l Hx _ IH]; [done|]. simpl. by rewrite Hx.
Qed.

Lemma submitted_count_events (evs : list event) :
  Forall (λ ev, count_event ev = true) evs → submitted evs = [].
Proof.
  intros H. apply omap_none. eapply Forall_impl; [exact H|].
  by intros [[]|[] []|].
Qed.


Lemma submitted_loop_events (self : parser) (pages : list Z) :
  submitted (loop_events self pages) = [].
Proof.
  apply omap_none. unfold loop_events. apply Forall_forall.
  intros ev (page & Hev & _)%list_elem_of_bind.
  apply elem_of_app in Hev as [Hev|Hev].
  - pose proof (unit_events_spec self page) as Hall.
    rewrite Forall_forall in Hall. specialize (Hall _ Hev).
    by destruct ev as [[]|[] []|].
  - apply list_elem_of_singleton in Hev as ->. unfold completion_log.
    by destruct (page_outcome self page).
Qed.


Lemma submitted_submit (pages : list Z) : submitted (EvSubmit <$> pages) = pages.
Proof.
  induction pages as [|page pages IH]; [done|].
  unfold submitted. simpl. f_equal. exact IH.
Qed.

Lemma pages_range_truncating (z : Z) : planned_pages z = seqZ 1 (spec_last_page z).
Proof.
  unfold planned_pages, pages_range, spec_last_page, clamped_count,
    MAX_REVIEWS, REVIEWS_PER_PAGE.
  rewrite Z.gtb_ltb. destruct (5200 <? z) eqn:Hgt; [done|].
  apply Z.ltb_ge in Hgt. destruct (Z.le_gt_cases 0 z) as [Hz|Hz].
  - by rewrite Z.quot_div_nonneg by lia.
  - assert (z / 10 ≤ 0) as Hfloor.
    { pose proof (Z.div_lt_upper_bound z 10 0). lia. }
    assert (z ÷ 10 ≤ 0) as Htrunc.
    { pose proof (Z.quot_opp_l (- z) 10 ltac:(lia)) as Hq.
      rewrite Z.opp_involutive in Hq. rewrite Hq.
      pose proof (Z.quot_pos (- z) 10). lia. }
    by rewrite !seqZ_nil.
Qed.

Lemma submitted_orchestrator sched self rc z evs :
  Forall (λ ev, count_event ev = true) evs →
  submitted (evs ++ orchestrator_events sched self rc z) = planned_pages z.
Proof.
  intros Hevs. unfold orchestrator_events, submitted. rewrite !omap_app.
  fold (submitted evs). fold (submitted (EvSubmit <$> planned_pages z)).
  fold (submitted (loop_events self (sched (planned_pages z)))).
  rewrite (submitted_count_events evs Hevs), submitted_submit,
    submitted_loop_events.
  destruct (MAX_REVIEWS <? z); simpl; by rewrite app_nil_r.
Qed.








(** ** Failures before and inside the pool *)

(** C8: when [get_app_rating_count] (with the authentication it triggers)
    raises, [parse_parallel] raises the same exception having recorded only
    that step's events, none of them a submission, a reviews request or a
    page completion, and the program ends with that exception and the
    files as they were.  When it returns an integer, [parse_parallel]
    returns normally whatever the page fetches do: the pages that raise
    are left out of what is collected. *)
Theorem count_failure_terminates (sched : list Z → list Z) (self : parser) :
  (∀ e self' evs,
     run get_app_rating_count self = (Err e, self', evs) →
     run (parse_parallel sched) self = (Err e, self', evs) ∧
     Forall (λ ev, page_fetch_event ev = false) evs) ∧
  (∀ env srv name id files e self' evs,
     self = AppStoreParser srv name id →
     run get_app_rating_count self = (Err e, self', evs) →
     main env srv sched name id files = (Err e, files, evs)) ∧
  (∀ rc self' evs z,
     run get_app_rating_count self = (OK rc, self', evs) →
     py_int rc = OK z →
     (run (parse_parallel sched) self).1.1 =
       OK (concat (sort_by_page
                     (collected self' (sched (planned_pages z)))).*2) ∧
     ∀ p r, (p, r) ∈ collected self' (sched (planned_pages z)) →
            page_outcome self' p = OK r).
Proof.
  split; [|split].
  - intros e self' evs Hcount. split.
    + by rewrite run_parse_parallel, Hcount.
    + pose proof (count_events self) as Hevs. rewrite Hcount in Hevs.
      eapply Forall_impl; [exact Hevs|]. by intros [[]|[] []|].
  - intros env srv name id files e self' evs -> Hcount.
    unfold main. by rewrite run_parse_parallel, Hcount.
  - intros rc self' evs z Hcount Hz. split.
    + by rewrite run_parse_parallel, Hcount, Hz.
    + by intros p r [_ Hr]%elem_of_collected.
Qed.

Lemma count_failure_terminates_witness :
  run (parse_parallel reverse) (AppStoreParser down_srv "app" 1) =
    (Err (HTTPError 503), with_token (AppStoreParser down_srv "app" 1) (JStr "tok"),
     [EvLog INFO MsgAuthorizing; EvRequest (GetAppPage "app" 1);
      EvLog INFO MsgAuthorized; EvRequest (GetAppInfo "app" 1 (JStr "tok"))]) ∧
  main sample_env down_srv reverse "app" 1 ∅ =
    (Err (HTTPError 503), ∅,
     [EvLog INFO MsgAuthorizing; EvRequest (GetAppPage "app" 1);
      EvLog INFO MsgAuthorized; EvRequest (GetAppInfo "app" 1 (JStr "tok"))]).
Proof.
  destruct (count_failure_terminates reverse (AppStoreParser down_srv "app" 1))
    as (Hpar & Hmain & _).
  split.
  - apply Hpar. vm_compute. reflexivity.
  - eapply Hmain; [reflexivity|]. vm_compute. reflexivity.
Defined.

(** ** Where the output goes *)

Lemma split_slash_plain (s : string) : has_slash s = false → split_slash s = [s].
Proof.
  induction s as [|c s IH]; [done|]. simpl.
  intros [Hc Hs]%orb_false_iff. by rewrite Hc, (IH Hs).
Qed.

Lemma has_slash_append (s t : string) :
  has_slash (String.append s t) = has_slash s || has_slash t.
Proof.
  induction s as [|c s IH]; [done|]. simpl. by rewrite IH, orb_assoc.
Qed.

Lemma is_component_csv (name : string) :
  is_component (String.append name ".csv") = true.
Proof.
  unfold is_component. destruct name as [|a [|b name]]; [done| |]; simpl.
  - by destruct (Ascii.eqb a ".").
  - by destruct (Ascii.eqb a ".").
Qed.

Lemma Path_csv (name : string) :
  has_slash name = false →
  Path (String.append name ".csv") = mkPath false [String.append name ".csv"].
Proof.
  intros Hname. unfold Path. f_equal.
  - destruct name as [|c name]; [done|]. simpl in *.
    by apply orb_false_iff in Hname as [-> _].
  - rewrite split_slash_plain by (by rewrite has_slash_append, Hname).
    rewrite filter_cons, decide_True by apply is_component_csv. done.
Qed.

(** C4, as stated: the output is not always [<app_name>.csv] in the
    working directory.  Run from [/home/user], the script
    [/opt/tool/app_store_parse.py] leaves no [/home/user/app.csv]. *)
Lemma output_not_in_working_directory : ¬ writes_to_working_directory.
Proof.
  intros Hclaim.
  destruct (Hclaim sample_env (sample_srv 15 (-1)) id "app" 1 ∅
              sample_run.1.2 sample_run.2) as [f Hf].
  - vm_compute. reflexivity.
  - vm_compute in Hf. discriminate Hf.
Qed.

(** C4, amended: when the reviews have been collected and the destination
    can be opened, the program writes to [BASE_PATH / '<app_name>.csv'],
    [BASE_PATH] being the directory part of the script's own [__file__];
    for an [app_name] without a slash that is the file [<app_name>.csv]
    directly in the script's directory.  The file holds the header and the
    rows of the reviews up to the first that cannot be encoded in UTF-8;
    when all of them can, the program ends normally and every review has
    its row. *)
Theorem output_beside_script env srv sched name id files reviews self' evs :
  run (parse_parallel sched) (AppStoreParser srv name id)
    = (OK reviews, self', evs) →
  can_open_w env
    (os_file env (joinpath (BASE_PATH env) (String.append name ".csv"))) = true →
  (∃ r evs',
     main env srv sched name id files =
       (r,
        <[os_file env (joinpath (BASE_PATH env) (String.append name ".csv")) :=
            header_row fieldnames ::
              (row_of <$> encodable_prefix reviews)]> files,
        evs') ∧
     (forallb review_encodable reviews = true →
        r = OK () ∧ encodable_prefix reviews = reviews) ∧
     (forallb review_encodable reviews = false → r = Err UnicodeEncodeError)) ∧
  (has_slash name = false →
     os_file env (joinpath (BASE_PATH env) (String.append name ".csv")) =
       os_file env (Path (dirname (dunder_file env)))
         ++ [String.append name ".csv"]).
Proof.
  intros Hrun Hopen. split.
  - unfold main. rewrite Hrun. unfold write_reviews.
    rewrite Hopen, write_rows_spec.
    pose proof (encodable_prefix_all reviews) as Hall.
    destruct (forallb review_encodable reviews);
      eexists _, _; (split; [reflexivity|]); split; auto; done.
  - intros Hname. unfold joinpath, os_file, BASE_PATH.
    rewrite (Path_csv name Hname). cbn [is_abs parts].
    destruct (is_abs (Path (dirname (dunder_file env)))); cbn [is_abs parts];
      [reflexivity|].
    by rewrite app_assoc.
Qed.

Lemma output_beside_script_witness :
  ∃ f, sample_run.1.2 !! ["opt"; "tool"; "app.csv"] = Some f ∧
       sample_run.1.2 !! ["home"; "user"; "app.csv"] = None.
Proof.
  destruct (output_beside_script sample_env (sample_srv 15 (-1)) id "app" 1 ∅
              (planned_pages 15 ≫= payload
                 (with_token (sample_parser 15 (-1)) (JStr "tok")))
              (with_token (sample_parser 15 (-1)) (JStr "tok"))
              (run (parse_parallel id) (sample_parser 15 (-1))).2)
    as [(r & evs' & Hmain & _) Hpath].
  - vm_compute. reflexivity.
  - reflexivity.
  - eexists. fold sample_run in Hmain. rewrite Hmain. cbn [fst snd].
    rewrite (Hpath eq_refl). split; [apply lookup_insert_eq|].
    vm_compute. reflexivity.
Defined.

(** ** Following the cursor: [get_reviews] *)

Lemma run__get_reviews_authed (offset : Z) (self : parser) :
  truthy (_auth_token (after_auth self)) = true →
  run (_get_reviews offset) self =
    (fetch_page (after_auth self) offset, after_auth self,
     auth_prefix self ++ fetch_page_events (after_auth self) offset).
Proof.
  intros Hauth. rewrite run__get_reviews. unfold after_auth, auth_prefix in *.
  destruct (truthy (_auth_token self)) eqn:Htok; [done|].
  rewrite run__auth. destruct (fetch_token self) as [e|t]; [congruence|done].
Qed.

Lemma after_auth_fixed (self : parser) :
  truthy (_auth_token (after_auth self)) = true →
  after_auth (after_auth self) = after_auth self ∧
  auth_prefix (after_auth self) = [].
Proof.
  intros Hauth. unfold after_auth at 1, auth_prefix. by rewrite Hauth.
Qed.

Lemma auth_prefix_events (self : parser) :
  Forall (λ ev, auth_event ev = true) (auth_prefix self).
Proof.
  unfold auth_prefix. destruct (truthy (_auth_token self)); [constructor|].
  apply auth_events.
Qed.

Lemma get_reviews_loop_step (fuel : nat) (next_page : json) (count : Z)
    (reviews : list Review) (self : parser) :
  truthy next_page = true →
  truthy (_auth_token (after_auth self)) = true →
  run (get_reviews_loop (S fuel) next_page count reviews) self =
    match fetch_page (after_auth self) count with
    | Err e =>
        (Err e, after_auth self,
         auth_prefix self ++ fetch_page_events (after_auth self) count)
    | OK r =>
        match run (get_reviews_loop fuel r.1 (count + Z.of_nat (length r.2))
                     (reviews ++ r.2)) (after_auth self) with
        | (res, self', evs) =>
            (res, self',
             (auth_prefix self ++ fetch_page_events (after_auth self) count)
               ++ evs)
        end
    end.
Proof.
  intros Hnext Hauth. cbn [get_reviews_loop]. rewrite Hnext, run_bind.
  rewrite (run__get_reviews_authed count self Hauth).
  by destruct (fetch_page (after_auth self) count).
Qed.

Lemma get_reviews_loop_follows (pages : list (json * list Review)) :
  ∀ self next_page count reviews last fuel,
    truthy (_auth_token (after_auth self)) = true →
    truthy next_page = true →
    fetched (after_auth self) count (pages ++ [last]) →
    Forall (λ p, truthy p.1 = true) pages →
    truthy last.1 = false →
    (length pages + 1 < fuel)%nat →
    run (get_reviews_loop fuel next_page count reviews) self =
      (OK (Some (reviews ++ concat (pages ++ [last]).*2)), after_auth self,
       auth_prefix self ++
       (offsets_of count (pages ++ [last]) ≫=
          fetch_page_events (after_auth self))).
Proof.
  induction pages as [|p pages IH];
    intros self next_page count reviews last fuel Hauth Hnext Hfetched Hall
      Hlast Hfuel.
  - destruct fuel as [|[|fuel]]; [simpl in Hfuel; lia..|].
    destruct Hfetched as [Hpage _].
    rewrite get_reviews_loop_step, Hpage by done.
    cbn [get_reviews_loop]. rewrite Hlast. cbn [run mret M_ret].
    simpl. by rewrite !app_nil_r.
  - destruct fuel as [|fuel]; [simpl in Hfuel; lia|].
    destruct Hfetched as [Hpage Hrest].
    apply Forall_cons in Hall as [Hp Hall].
    destruct (after_auth_fixed self Hauth) as [Hfix Hnil].
    rewrite get_reviews_loop_step, Hpage by done.
    rewrite (IH (after_auth self) p.1 _ _ last fuel); rewrite ?Hfix; try done.
    + rewrite Hnil. simpl. by rewrite <-!app_assoc.
    + simpl in Hfuel. lia.
Qed.

Lemma get_reviews_loop_fails (pages : list (json * list Review)) :
  ∀ self next_page count reviews e fuel,
    truthy (_auth_token (after_auth self)) = true →
    truthy next_page = true →
    fetched (after_auth self) count pages →
    Forall (λ p, truthy p.1 = true) pages →
    fetch_page (after_auth self) (count + total_reviews pages) = Err e →
    (length pages < fuel)%nat →
    (run (get_reviews_loop fuel next_page count reviews) self).1 =
      (Err e, after_auth self).
Proof.
  unfold total_reviews.
  induction pages as [|p pages IH];
    intros self next_page count reviews e fuel Hauth Hnext Hfetched Hall
      Hfail Hfuel.
  - destruct fuel as [|fuel]; [simpl in Hfuel; lia|].
    simpl in Hfail. rewrite Z.add_0_r in Hfail.
    by rewrite get_reviews_loop_step, Hfail.
  - destruct fuel as [|fuel]; [simpl in Hfuel; lia|].
    destruct Hfetched as [Hpage Hrest].
    apply Forall_cons in Hall as [Hp Hall].
    destruct (after_auth_fixed self Hauth) as [Hfix _].
    rewrite get_reviews_loop_step, Hpage by done.
    specialize (IH (after_auth self) p.1 (count + Z.of_nat (length p.2))
                  (reviews ++ p.2) e fuel).
    rewrite Hfix in IH.
    rewrite fmap_cons, concat_cons, length_app, Nat2Z.inj_add, Z.add_assoc
      in Hfail.
    assert (length pages < fuel)%nat as Hfuel' by (simpl in Hfuel; lia).
    specialize (IH Hauth Hp Hrest Hall Hfail Hfuel').
    destruct (run (get_reviews_loop fuel _ _ _) (after_auth self))
      as [[res s] evs].
    exact IH.
Qed.

Lemma first_cursor_truthy (id : Z) :
  truthy (JStr (String.append "/v1/catalog/ru/apps/"
                  (String.append (pretty id) "/reviews?l=ru&offset=0"))) = true.
Proof. reflexivity. Qed.

(** X1: when the store answers the requests at offset 0, then at the
    number of reviews received so far, and so on, each time with a cursor
    except the last, [get_reviews] returns the reviews of all those pages in
    order, having asked for exactly those offsets. *)
Theorem get_reviews_follows_cursor (self : parser)
    (pages : list (json * list Review)) (last : json * list Review)
    (fuel : nat) :
  truthy (_auth_token (after_auth self)) = true →
  fetched (after_auth self) 0 (pages ++ [last]) →
  Forall (λ p, truthy p.1 = true) pages →
  truthy last.1 = false →
  (length pages + 1 < fuel)%nat →
  run (get_reviews fuel) self =
    (OK (Some (concat (pages ++ [last]).*2)), after_auth self,
     auth_prefix self ++
     (offsets_of 0 (pages ++ [last]) ≫= fetch_page_events (after_auth self))).
Proof.
  intros Hauth Hfetched Hall Hlast Hfuel. unfold get_reviews.
  rewrite run_bind. cbn [run get_self].
  by rewrite (get_reviews_loop_follows pages self _ 0 [] last fuel).
Qed.

Lemma get_reviews_follows_cursor_witness :
  (run (get_reviews 3) (AppStoreParser cursor_srv "app" 1)).1.1 =
    OK (Some [mkReview (JStr "a") (JStr "t") (JStr "text") (JBool false)
                (JStr "2020-01-01") (JInt 5) None;
              mkReview (JStr "b") (JStr "t") (JStr "text") (JBool false)
                (JStr "2020-01-01") (JInt 4) None;
              mkReview (JStr "c") (JStr "t") (JStr "text") (JBool false)
                (JStr "2020-01-01") (JInt 3) None]).
Proof.
  rewrite (get_reviews_follows_cursor (AppStoreParser cursor_srv "app" 1)
             [(JStr "/reviews?offset=2",
               [mkReview (JStr "a") (JStr "t") (JStr "text") (JBool false)
                  (JStr "2020-01-01") (JInt 5) None;
                mkReview (JStr "b") (JStr "t") (JStr "text") (JBool false)
                  (JStr "2020-01-01") (JInt 4) None])]
             (JNull,
              [mkReview (JStr "c") (JStr "t") (JStr "text") (JBool false)
                 (JStr "2020-01-01") (JInt 3) None]) 3).
  - reflexivity.
  - reflexivity.
  - split; [vm_compute; reflexivity|]. split; [vm_compute; reflexivity|done].
  - repeat constructor.
  - reflexivity.
  - simpl. lia.
Defined.

(** X2: [get_reviews] has no handler: when a request fails after some
    pages have been received, it raises that exception and the reviews
    already received are not returned. *)
Theorem get_reviews_fails_whole (self : parser)
    (pages : list (json * list Review)) (e : exn) (fuel : nat) :
  truthy (_auth_token (after_auth self)) = true →
  fetched (after_auth self) 0 pages →
  Forall (λ p, truthy p.1 = true) pages →
  fetch_page (after_auth self) (total_reviews pages) = Err e →
  (length pages < fuel)%nat →
  (run (get_reviews fuel) self).1.1 = Err e.
Proof.
  intros Hauth Hfetched Hall Hfail Hfuel. unfold get_reviews.
  rewrite run_bind. cbn [run get_self].
  pose proof (get_reviews_loop_fails pages self
                (JStr (String.append "/v1/catalog/ru/apps/"
                   (String.append (pretty (app_id self))
                      "/reviews?l=ru&offset=0")))
                0 [] e fuel Hauth (first_cursor_truthy _) Hfetched Hall
                Hfail Hfuel) as Hloop.
  destruct (run (get_reviews_loop fuel _ 0 []) self) as [[res s] evs].
  simpl in *. by injection Hloop as -> _.
Qed.

Lemma get_reviews_fails_whole_witness :
  (run (get_reviews 2) (AppStoreParser cut_cursor_srv "app" 1)).1.1 =
    Err (HTTPError 404).
Proof.
  apply (get_reviews_fails_whole (AppStoreParser cut_cursor_srv "app" 1)
           [(JStr "/reviews?offset=2",
             [mkReview (JStr "a") (JStr "t") (JStr "text") (JBool false)
                (JStr "2020-01-01") (JInt 5) None;
              mkReview (JStr "b") (JStr "t") (JStr "text") (JBool false)
                (JStr "2020-01-01") (JInt 4) None])]).
  - reflexivity.
  - split; [vm_compute; reflexivity|done].
  - repeat constructor.
  - vm_compute. reflexivity.
  - simpl. lia.
Defined.

Lemma get_reviews_loop_stuck (next : json) (count : Z) :
  ∀ fuel self next_page reviews,
    truthy (_auth_token (after_auth self)) = true →
    truthy next_page = true →
    fetch_page (after_auth self) count = OK (next, []) →
    truthy next = true →
    (run (get_reviews_loop fuel next_page count reviews) self).1.1 = OK None ∧
    count_where (request_at count)
      (run (get_reviews_loop fuel next_page count reviews) self).2 = fuel.
Proof.
  induction fuel as [|fuel IH];
    intros self next_page reviews Hauth Hnext_page Hpage Hnext; [done|].
  destruct (after_auth_fixed self Hauth) as [Hfix _].
  rewrite get_reviews_loop_step, Hpage by done.
  cbn [fst snd length]. rewrite Z.add_0_r.
  specialize (IH (after_auth self) next (reviews ++ [])).
  rewrite Hfix in IH. destruct (IH Hauth Hnext Hpage Hnext) as [Hres Hcount].
  destruct (run (get_reviews_loop fuel next count (reviews ++ []))
              (after_auth self)) as [[res s] evs].
  simpl in Hres, Hcount. cbn [fst snd]. split; [done|].
  rewrite !count_where_app, Hcount, (count_where_none _ (auth_prefix self)).
  - unfold count_where, fetch_page_events.
    rewrite filter_cons_False by done.
    rewrite filter_cons_True by (simpl; lia). done.
  - eapply Forall_impl; [apply auth_prefix_events|]. by intros [[]|[] []|].
Qed.

(** X3: the offset [get_reviews] asks for is the number of reviews it
    holds, whatever the cursor says.  When the store answers offset 0 with
    an empty page and a cursor, [get_reviews] never returns: however many
    iterations it is given it is still looping, each one a request at
    offset 0. *)
Theorem get_reviews_empty_page_loops (self : parser) (next : json) (fuel : nat) :
  truthy (_auth_token (after_auth self)) = true →
  fetch_page (after_auth self) 0 = OK (next, []) →
  truthy next = true →
  (run (get_reviews fuel) self).1.1 = OK None ∧
  count_where (request_at 0) (run (get_reviews fuel) self).2 = fuel.
Proof.
  intros Hauth Hpage Hnext. unfold get_reviews.
  rewrite run_bind. cbn [run get_self].
  destruct (get_reviews_loop_stuck next 0 fuel self
              (JStr (String.append "/v1/catalog/ru/apps/"
                 (String.append (pretty (app_id self))
                    "/reviews?l=ru&offset=0")))
              [] Hauth (first_cursor_truthy _) Hpage Hnext) as [Hres Hcount].
  destruct (run (get_reviews_loop fuel _ 0 []) self) as [[res s] evs].
  simpl in *. by subst.
Qed.

Lemma get_reviews_empty_page_loops_witness :
  (run (get_reviews 50) (AppStoreParser stuck_srv "app" 1)).1.1 = OK None ∧
  count_where (request_at 0)
    (run (get_reviews 50) (AppStoreParser stuck_srv "app" 1)).2 = 50%nat.
Proof.
  apply (get_reviews_empty_page_loops (AppStoreParser stuck_srv "app" 1)
           (JStr "/more") 50).
  - reflexivity.
  - vm_compute. reflexivity.
  - reflexivity.
Defined.

(** ** Authentication *)

Lemma run_get_reviews_page_truthy (page : Z) (self : parser) :
  truthy (_auth_token self) = true → 0 < page →
  run (get_reviews_page page) self =
    (fetch_page self ((page - 1) * REVIEWS_PER_PAGE) ≫= (λ r, OK r.2), self,
     fetch_page_events self ((page - 1) * REVIEWS_PER_PAGE)).
Proof.
  intros Htok Hpage.
  by rewrite run_get_reviews_page, run__get_reviews, Htok.
Qed.

(** X4: with a token in hand, the unit of work for page [p ≥ 1] records
    exactly two events: the log record [Scanning reviews from page #(p-1)]
    (the page index it logs counts from zero) and one reviews request, at
    offset [(p - 1) * 10], for the parser's application and with the
    parser's token; the parser is left as it was. *)
Theorem unit_of_work_events (page : Z) (self : parser) :
  truthy (_auth_token self) = true → 1 ≤ page →
  unit_events self page =
    [EvLog INFO (MsgScanning (page - 1));
     EvRequest (GetReviews (app_name self) (app_id self) (_auth_token self)
                  ((page - 1) * 10))] ∧
  (run (get_reviews_page page) self).1.2 = self.
Proof.
  intros Htok Hpage. unfold unit_events.
  rewrite run_get_reviews_page_truthy by (done || lia).
  unfold fetch_page_events, REVIEWS_PER_PAGE. cbn [fst snd].
  by rewrite Z.div_mul.
Qed.

Lemma unit_of_work_events_witness :
  unit_events (with_token (sample_parser 35 (-1)) (JStr "tok")) 3 =
    [EvLog INFO (MsgScanning 2);
     EvRequest (GetReviews "app" 1 (JStr "tok") 20)].
Proof.
  apply (unit_of_work_events 3 (with_token (sample_parser 35 (-1)) (JStr "tok")));
    [reflexivity|lia].
Defined.

(** X5: a unit of work run by a parser without a token authenticates
    first, and when that fails it raises the exception of the
    authentication: the parser is unchanged and no reviews request is
    sent. *)
Theorem unit_of_work_auth_failure (page : Z) (self : parser) (e : exn) :
  truthy (_auth_token self) = false → fetch_token self = Err e → 1 ≤ page →
  run (get_reviews_page page) self =
    (Err e, self,
     [EvLog INFO MsgAuthorizing;
      EvRequest (GetAppPage (app_name self) (app_id self))]).
Proof.
  intros Htok Hfetch Hpage.
  by rewrite run_get_reviews_page, run__get_reviews, Htok, run__auth, Hfetch
    by lia.
Qed.

Lemma unit_of_work_auth_failure_witness :
  run (get_reviews_page 1) (AppStoreParser anonymous_srv "app" 1) =
    (Err AttributeError, AppStoreParser anonymous_srv "app" 1,
     [EvLog INFO MsgAuthorizing; EvRequest (GetAppPage "app" 1)]).
Proof.
  apply (unit_of_work_auth_failure 1 (AppStoreParser anonymous_srv "app" 1));
    [reflexivity|reflexivity|lia].
Defined.

Lemma loop_events_no_auth (self : parser) (pages : list Z) :
  truthy (_auth_token self) = true →
  count_where auth_request (loop_events self pages) = 0%nat.
Proof.
  intros Htok. apply count_where_none. unfold loop_events.
  apply Forall_forall. intros ev (page & Hev & _)%list_elem_of_bind.
  apply elem_of_app in Hev as [Hev|Hev].
  - unfold unit_events in Hev.
    destruct (Z.lt_ge_cases 0 page) as [Hpage|Hpage].
    + rewrite run_get_reviews_page_truthy in Hev by done.
      unfold fetch_page_events in Hev. cbn [snd] in Hev.
      apply elem_of_cons in Hev as [->|Hev]; [done|].
      by apply list_elem_of_singleton in Hev as ->.
    + unfold get_reviews_page in Hev.
      destruct (Z.ltb_spec 0 page); [lia|]. by apply elem_of_nil in Hev.
  - apply list_elem_of_singleton in Hev as ->. unfold completion_log.
    by destruct (page_outcome self page).
Qed.

(** X6: a run of [parse_parallel] authenticates at most once.  When the
    parser holds a token, or the store hands out a truthy one, the
    application page is requested once if the parser had no token and not
    at all if it had one, however many pages are fetched and whether or not
    the run succeeds. *)
Theorem authentication_once (sched : list Z → list Z) (self : parser) :
  truthy (_auth_token (after_auth self)) = true →
  count_where auth_request (run (parse_parallel sched) self).2 =
    if truthy (_auth_token self) then 0%nat else 1%nat.
Proof.
  intros Hauth. rewrite run_parse_parallel, run_get_app_rating_count.
  unfold after_auth in Hauth.
  destruct (truthy (_auth_token self)) eqn:Htok.
  - destruct (fetch_info self ≫= rating_of) as [e|rc]; [done|].
    destruct (py_int rc) as [e|z]; [done|]. cbn [snd].
    unfold orchestrator_events.
    rewrite !count_where_app, (loop_events_no_auth _ _ Htok).
    rewrite (count_where_none _ (EvSubmit <$> _))
      by (apply Forall_fmap, Forall_true; done).
    by destruct (MAX_REVIEWS <? z).
  - rewrite run__auth. destruct (fetch_token self) as [e|t]; [congruence|].
    destruct (fetch_info (with_token self t) ≫= rating_of) as [e|rc]; [done|].
    destruct (py_int rc) as [e|z]; [done|]. cbn [snd].
    unfold orchestrator_events.
    rewrite !count_where_app, (loop_events_no_auth _ _ Hauth).
    rewrite (count_where_none _ (EvSubmit <$> _))
      by (apply Forall_fmap, Forall_true; done).
    by destruct (MAX_REVIEWS <? z).
Qed.

Lemma authentication_once_witness :
  count_where auth_request
    (run (parse_parallel reverse) (sample_parser 35 10)).2 = 1%nat.
Proof.
  apply (authentication_once reverse (sample_parser 35 10)). reflexivity.
Defined.

(** ** More on the orchestrator *)

Lemma planned_pages_bound (z : Z) :
  (length (planned_pages z) ≤ 520)%nat ∧
  Forall (λ p, 1 ≤ p ≤ 520) (planned_pages z).
Proof.
  unfold planned_pages, pages_range, clamped_count, MAX_REVIEWS,
    REVIEWS_PER_PAGE.
  assert ((if 5200 <? z then 5200 else z) / 10 ≤ 520) as Hle.
  { destruct (Z.ltb_spec 5200 z); [done|].
    apply Z.div_le_upper_bound; lia. }
  split.
  - rewrite length_seqZ. lia.
  - apply Forall_seqZ. lia.
Qed.

(** X7: whichever pages fail, and in whatever order the futures complete,
    [parse_parallel] returns the reviews of the pages that succeeded, in
    page order: a review is returned exactly when a successful page of the
    range holds it, and two completion orders give the same reviews. *)
Theorem successful_pages_in_order sched self rc z self1 evs :
  run get_app_rating_count self = (OK rc, self1, evs) →
  py_int rc = OK z →
  sched (planned_pages z) ≡ₚ planned_pages z →
  (run (parse_parallel sched) self).1.1 = OK (planned_pages z ≫= payload self1) ∧
  (∀ rv, rv ∈ planned_pages z ≫= payload self1 ↔
         ∃ p reviews, p ∈ planned_pages z ∧
                      page_outcome self1 p = OK reviews ∧ rv ∈ reviews) ∧
  (∀ sched', sched' (planned_pages z) ≡ₚ planned_pages z →
     (run (parse_parallel sched') self).1.1 =
     (run (parse_parallel sched) self).1.1).
Proof.
  intros Hcount Hz Hperm. split; [|split].
  - rewrite run_parse_parallel, Hcount, Hz. cbn [fst].
    by rewrite orchestrated_reassembles.
  - intros rv. rewrite list_elem_of_bind. unfold payload. split.
    + intros (p & Hrv & Hp).
      destruct (page_outcome self1 p) as [e|reviews] eqn:Hout.
      * by apply elem_of_nil in Hrv.
      * by exists p, reviews.
    + intros (p & reviews & Hp & Hout & Hrv). exists p. by rewrite Hout.
  - intros sched' Hperm'. rewrite !run_parse_parallel, Hcount, Hz. cbn [fst].
    by rewrite !orchestrated_reassembles.
Qed.

Lemma successful_pages_in_order_witness :
  (run (parse_parallel reverse) (sample_parser 35 10)).1.1 =
  (run (parse_parallel id) (sample_parser 35 10)).1.1.
Proof.
  destruct (successful_pages_in_order id (sample_parser 35 10) (JInt 35) 35
              (with_token (sample_parser 35 10) (JStr "tok"))
              [EvLog INFO MsgAuthorizing; EvRequest (GetAppPage "app" 1);
               EvLog INFO MsgAuthorized;
               EvRequest (GetAppInfo "app" 1 (JStr "tok"))])
    as (_ & _ & Hsame).
  - vm_compute. reflexivity.
  - reflexivity.
  - reflexivity.
  - apply Hsame. apply reverse_Permutation.
Defined.

(** X8: whatever the store reports, [parse_parallel] submits at most 520
    units of work, for pages between 1 and 520. *)
Theorem page_budget (sched : list Z → list Z) (self : parser) :
  (length (submitted (run (parse_parallel sched) self).2) ≤ 520)%nat ∧
  Forall (λ p, 1 ≤ p ≤ 520) (submitted (run (parse_parallel sched) self).2).
Proof.
  pose proof (count_events self) as Hevs. rewrite run_parse_parallel.
  destruct (run get_app_rating_count self) as [[[e|rc] s] evs]; cbn [snd] in *.
  - rewrite (submitted_count_events evs Hevs). split; [simpl; lia|constructor].
  - destruct (py_int rc) as [e|z]; cbn [snd].
    + unfold submitted. rewrite omap_app. fold (submitted evs).
      rewrite (submitted_count_events evs Hevs). split; [simpl; lia|constructor].
    + rewrite (submitted_orchestrator _ _ _ _ _ Hevs).
      apply planned_pages_bound.
Qed.

(** X9: an application with fewer than ten ratings gets no page at all:
    [parse_parallel] returns the empty list having logged the count and
    submitted nothing. *)
Theorem few_ratings_no_reviews sched self rc z self1 evs :
  run get_app_rating_count self = (OK rc, self1, evs) →
  py_int rc = OK z → z < 10 → sched [] ≡ₚ [] →
  run (parse_parallel sched) self =
    (OK [], self1,
     evs ++ [EvLog INFO (MsgAppHas (app_name self1) rc);
             EvLog INFO (MsgToScan rc);
             EvLog INFO (MsgScanned 0)]).
Proof.
  intros Hcount Hz Hsmall Hsched. apply Permutation_nil_r in Hsched.
  rewrite run_parse_parallel, Hcount, Hz.
  assert (planned_pages z = []) as Hnone.
  { unfold planned_pages, pages_range, clamped_count, MAX_REVIEWS,
      REVIEWS_PER_PAGE.
    destruct (Z.ltb_spec 5200 z); [lia|]. apply seqZ_nil.
    pose proof (Z.div_lt_upper_bound z 10 1). lia. }
  unfold orchestrator_events, orchestrated. rewrite Hnone, Hsched.
  unfold MAX_REVIEWS. by destruct (Z.ltb_spec 5200 z); [lia|].
Qed.

Lemma few_ratings_no_reviews_witness :
  (run (parse_parallel reverse) (sample_parser 9 (-1))).1.1 = OK [].
Proof.
  rewrite (few_ratings_no_reviews reverse (sample_parser 9 (-1)) (JInt 9) 9
             (with_token (sample_parser 9 (-1)) (JStr "tok"))
             [EvLog INFO MsgAuthorizing; EvRequest (GetAppPage "app" 1);
              EvLog INFO MsgAuthorized;
              EvRequest (GetAppInfo "app" 1 (JStr "tok"))]).
  - reflexivity.
  - vm_compute. reflexivity.
  - reflexivity.
  - lia.
  - reflexivity.
Defined.

(** X10: when the rating count the store reports is not a number (a
    string, [null], a list, an object), [parse_parallel] raises
    [TypeError] at the comparison with [MAX_REVIEWS]: the count has been
    logged, nothing has been submitted. *)
Theorem non_integer_count sched self rc self1 evs :
  run get_app_rating_count self = (OK rc, self1, evs) →
  (∀ z, rc ≠ JInt z) → (∀ b, rc ≠ JBool b) →
  run (parse_parallel sched) self =
    (Err TypeError, self1,
     evs ++ [EvLog INFO (MsgAppHas (app_name self1) rc)]).
Proof.
  intros Hcount Hint Hbool. rewrite run_parse_parallel, Hcount.
  destruct rc; try done; [by destruct (Hbool b)|by destruct (Hint z)].
Qed.

Lemma non_integer_count_witness :
  (run (parse_parallel reverse) (AppStoreParser unrated_srv "app" 1)).1.1 =
    Err TypeError.
Proof.
  rewrite (non_integer_count reverse (AppStoreParser unrated_srv "app" 1)
             (JStr "n/a")
             (with_token (AppStoreParser unrated_srv "app" 1) (JStr "tok"))
             [EvLog INFO MsgAuthorizing; EvRequest (GetAppPage "app" 1);
              EvLog INFO MsgAuthorized;
              EvRequest (GetAppInfo "app" 1 (JStr "tok"))]).
  - reflexivity.
  - vm_compute. reflexivity.
  - intros z. discriminate.
  - intros b. discriminate.
Defined.

Lemma loop_events_request_for (self : parser) (pages : list Z) :
  truthy (_auth_token self) = true →
  Forall (request_for self) (loop_events self pages).
Proof.
  intros Htok. unfold loop_events.
  apply Forall_forall. intros ev (page & Hev & _)%list_elem_of_bind.
  apply elem_of_app in Hev as [Hev|Hev].
  - unfold unit_events in Hev.
    destruct (Z.lt_ge_cases 0 page) as [Hpage|Hpage].
    + rewrite run_get_reviews_page_truthy in Hev by done.
      unfold fetch_page_events in Hev. cbn [snd] in Hev.
      apply elem_of_cons in Hev as [->|Hev]; [done|].
      by apply list_elem_of_singleton in Hev as ->.
    + unfold get_reviews_page in Hev.
      destruct (Z.ltb_spec 0 page); [lia|]. by apply elem_of_nil in Hev.
  - apply list_elem_of_singleton in Hev as ->. unfold completion_log.
    by destruct (page_outcome self page).
Qed.

(** X11: every request of a run of [parse_parallel] is for the parser's
    application, and the application-info request and all reviews requests
    carry one and the same token: the one the parser held, or the one the
    authentication at the start of the run obtained. *)
Theorem one_token_per_run (sched : list Z → list Z) (self : parser) :
  truthy (_auth_token (after_auth self)) = true →
  Forall (request_for (after_auth self)) (run (parse_parallel sched) self).2.
Proof.
  intros Hauth. rewrite run_parse_parallel, run_get_app_rating_count.
  assert (∀ s rc z, truthy (_auth_token s) = true →
            Forall (request_for s) (orchestrator_events sched s rc z)) as Horch.
  { intros s rc z Hs. unfold orchestrator_events.
    repeat apply Forall_app_2.
    - by repeat constructor.
    - destruct (MAX_REVIEWS <? z); by repeat constructor.
    - apply Forall_fmap, Forall_true. done.
    - by apply loop_events_request_for.
    - by repeat constructor. }
  unfold after_auth in *.
  destruct (truthy (_auth_token self)) eqn:Htok.
  - destruct (fetch_info self ≫= rating_of) as [e|rc].
    { by repeat constructor. }
    destruct (py_int rc) as [e|z]; cbn [snd].
    + by repeat constructor.
    + apply Forall_app_2; [by repeat constructor|by apply Horch].
  - rewrite run__auth. destruct (fetch_token self) as [e|t]; [congruence|].
    destruct (fetch_info (with_token self t) ≫= rating_of) as [e|rc].
    { by repeat constructor. }
    destruct (py_int rc) as [e|z]; cbn [snd].
    + by repeat constructor.
    + apply Forall_app_2; [by repeat constructor|by apply Horch].
Qed.

Lemma one_token_per_run_witness :
  Forall (request_for (with_token (sample_parser 35 10) (JStr "tok")))
    (run (parse_parallel reverse) (sample_parser 35 10)).2.
Proof.
  apply (one_token_per_run reverse (sample_parser 35 10)). reflexivity.
Defined.

(** ** More on decoding *)

Lemma decode_developer_response_iff (attrs : gmap string json)
    (dr : option DeveloperResponse) :
  decode_developer_response (JObj attrs) = OK dr ↔ response_matches attrs dr.
Proof.
  unfold decode_developer_response, response_matches. simpl. split.
  - intros Hdr.
    destruct (attrs !! "developerResponse") as [v|] eqn:Hv; simpl in Hdr.
    + destruct v as [| | | | |o]; simpl in Hdr; try done.
      * injection Hdr as <-. by right.
      * destruct (o !! "id") as [vid|] eqn:Hid; [|done].
        destruct (o !! "body") as [vb|] eqn:Hb; [|done].
        destruct (o !! "modified") as [vm|] eqn:Hm; [|done].
        simpl in Hdr. injection Hdr as <-. by exists o.
    + injection Hdr as <-. by left.
  - destruct dr as [d|].
    + intros (o & -> & Hid & Hb & Hm). simpl. rewrite Hid, Hb, Hm. simpl.
      by destruct d.
    + by intros [-> | ->].
Qed.

(** X12: a record decodes exactly when it is an object whose [attributes]
    object has the six keys and a [developerResponse] that is missing,
    [null], or an object with [id], [body] and [modified]; the review then
    holds the values found there: [userName] as [user_name], [date] as
    [last_update], the others under their own names. *)
Theorem decode_review_iff (record : json) (rv : Review) :
  decode_review record = OK rv ↔
  ∃ ro attrs,
    record = JObj ro ∧ ro !! "attributes" = Some (JObj attrs) ∧
    attrs !! "userName" = Some (user_name rv) ∧
    attrs !! "title" = Some (title rv) ∧
    attrs !! "review" = Some (review rv) ∧
    attrs !! "isEdited" = Some (is_edited rv) ∧
    attrs !! "date" = Some (last_update rv) ∧
    attrs !! "rating" = Some (rating rv) ∧
    response_matches attrs (developer_response rv).
Proof.
  unfold decode_review. split.
  - intros Hdec. destruct record as [| | | | |ro]; try done.
    simpl in Hdec. destruct (ro !! "attributes") as [review_attrs|] eqn:Hattrs;
      [|done]. simpl in Hdec.
    apply bind_OK in Hdec as (dr & Hdr & Hdec).
    destruct review_attrs as [| | | | |attrs]; try done.
    apply decode_developer_response_iff in Hdr. simpl in Hdec.
    destruct (attrs !! "userName") as [v1|] eqn:H1; [|done].
    destruct (attrs !! "review") as [v2|] eqn:H2; [|done].
    destruct (attrs !! "isEdited") as [v3|] eqn:H3; [|done].
    destruct (attrs !! "date") as [v4|] eqn:H4; [|done].
    destruct (attrs !! "rating") as [v5|] eqn:H5; [|done].
    destruct (attrs !! "title") as [v6|] eqn:H6; [|done].
    simpl in Hdec. injection Hdec as <-. by exists ro, attrs.
  - intros (ro & attrs & -> & Hattrs & H1 & H6 & H2 & H3 & H4 & H5 & Hdr).
    apply decode_developer_response_iff in Hdr.
    simpl. rewrite Hattrs. cbn [mbind result_bind]. rewrite Hdr.
    simpl. rewrite H1, H2, H3, H4, H5, H6. simpl. by destruct rv.
Qed.

Lemma decode_loop_first_bad (good : list json) (bad : json)
    (rest : list json) (e : exn) :
  Forall (λ r, is_OK (decode_review r) = true) good →
  decode_review bad = Err e →
  ∀ acc, decode_loop (good ++ bad :: rest) acc = Err e.
Proof.
  intros Hgood Hbad. induction Hgood as [|r good Hr _ IH]; intros acc; simpl.
  - by rewrite Hbad.
  - destruct (decode_review r); [done|]. apply IH.
Qed.

(** X13: the exception of a page is that of its first record that does
    not decode; the records after it are not looked at. *)
Theorem first_bad_record_decides (page_json : json) (good : list json)
    (bad : json) (rest : list json) (e : exn) :
  getitem_str page_json "data" = OK (JArr (good ++ bad :: rest)) →
  Forall (λ r, is_OK (decode_review r) = true) good →
  decode_review bad = Err e →
  decode_page page_json = Err e.
Proof.
  intros Hdata Hgood Hbad. unfold decode_page. rewrite Hdata. simpl.
  by rewrite (decode_loop_first_bad good bad rest e Hgood Hbad).
Qed.

Lemma first_bad_record_decides_witness :
  decode_page (obj [("data", JArr [sample_record "a" 5 None; untitled_record;
                                   JStr "not a record"])])
    = Err (KeyError (JStr "title")).
Proof.
  apply (first_bad_record_decides _ [sample_record "a" 5 None] untitled_record
           [JStr "not a record"]).
  - vm_compute. reflexivity.
  - repeat constructor.
  - vm_compute. reflexivity.
Defined.

(** X14: the status of the response is checked before its body is read: a
    page answered with a status from 400 to 599 raises [HTTPError] with
    that status, whatever the body holds. *)
Theorem error_status_fails_page (page : Z) (self : parser) (resp : response) :
  truthy (_auth_token self) = true → 1 ≤ page →
  session self (GetReviews (app_name self) (app_id self) (_auth_token self)
                  ((page - 1) * REVIEWS_PER_PAGE)) = OK resp →
  400 ≤ status_code resp < 600 →
  page_outcome self page = Err (HTTPError (status_code resp)).
Proof.
  intros Htok Hpage Hresp Hstatus. unfold page_outcome.
  rewrite run_get_reviews_page_truthy by (done || lia).
  unfold fetch_page, raise_for_status. cbn [fst]. rewrite Hresp. simpl.
  destruct (Z.leb_spec 400 (status_code resp)); [|lia].
  by destruct (Z.ltb_spec (status_code resp) 600); [|lia].
Qed.

Lemma error_status_fails_page_witness :
  page_outcome (with_token (sample_parser 35 10) (JStr "tok")) 2 =
    Err (HTTPError 500).
Proof.
  apply (error_status_fails_page 2
           (with_token (sample_parser 35 10) (JStr "tok"))
           (mkResponse 500 None MetaMissing));
    [reflexivity|lia|reflexivity|simpl; lia].
Defined.

(** ** More on the sink and the program *)

(** X15: writing to the same destination twice leaves what writing the
    second time alone leaves, whether or not either write raises part-way;
    writing the same reviews twice leaves what writing them once leaves. *)
Theorem last_write_wins (env : environ) (first second : list Review)
    (path : ppath) (files : gmap (list string) csv_file) :
  can_open_w env (os_file env path) = true →
  (write_reviews env second path
     (write_reviews env first path files).1.2).1.2 =
  (write_reviews env second path files).1.2.
Proof.
  intros Hopen. unfold write_reviews. rewrite Hopen, !write_rows_spec.
  destruct (forallb review_encodable first);
    destruct (forallb review_encodable second);
    cbn [fst snd]; apply insert_insert_eq.
Qed.

Lemma last_write_wins_witness :
  (write_reviews sample_env [sample_review "b" None] (Path "/tmp/out.csv")
     (write_reviews sample_env [surrogate_review; sample_review "a" None]
        (Path "/tmp/out.csv") ∅).1.2).1.2 =
  (write_reviews sample_env [sample_review "b" None] (Path "/tmp/out.csv")
     ∅).1.2.
Proof.
  apply (last_write_wins sample_env [surrogate_review; sample_review "a" None]
           [sample_review "b" None] (Path "/tmp/out.csv") ∅).
  reflexivity.
Defined.



(** ** The rating count *)

Lemma rating_of_iff (app_info v : json) :
  rating_of app_info = OK v ↔
  ∃ o d0 rest attrs ur,
    app_info = JObj o ∧
    o !! "data" = Some (JArr (JObj d0 :: rest)) ∧
    d0 !! "attributes" = Some (JObj attrs) ∧
    attrs !! "userRating" = Some (JObj ur) ∧
    ur !! "ratingCount" = Some v.
Proof.
  unfold rating_of. split.
  - intros Hr. destruct app_info as [| | | | |o]; try done. simpl in Hr.
    destruct (o !! "data") as [data|] eqn:Hdata; [|done]. simpl in Hr.
    apply bind_OK in Hr as (data0 & Hdata0 & Hr).
    destruct data0 as [| | | | |d0]; try done. simpl in Hr.
    destruct (d0 !! "attributes") as [a|] eqn:Ha; [|done]. simpl in Hr.
    destruct a as [| | | | |attrs]; try done. simpl in Hr.
    destruct (attrs !! "userRating") as [u|] eqn:Hu; [|done]. simpl in Hr.
    destruct u as [| | | | |ur]; try done. simpl in Hr.
    destruct (ur !! "ratingCount") as [w|] eqn:Hw; [|done].
    injection Hr as <-.
    destruct data as [| | |s|l|]; try done.
    + simpl in Hdata0. by destruct (string_chars s).
    + destruct l as [|x rest]; [done|]. injection Hdata0 as ->.
      by exists o, d0, rest, attrs, ur.
  - intros (o & d0 & rest & attrs & ur & -> & Hdata & Ha & Hu & Hw).
    simpl. rewrite Hdata. simpl. rewrite Ha. simpl. rewrite Hu. simpl.
    by rewrite Hw.
Qed.

(** X17: with a token in hand, [get_app_rating_count] returns [v] exactly
    when the application-info request is answered with a status outside
    400..599 and a JSON body in which [data] is a list whose first element
    is an object with [attributes.userRating.ratingCount] equal to [v];
    it sends that one request and leaves the parser as it was. *)
Theorem rating_count_iff (self : parser) (v : json) :
  truthy (_auth_token self) = true →
  ((run get_app_rating_count self).1.1 = OK v ↔
   ∃ resp o d0 rest attrs ur,
     session self (GetAppInfo (app_name self) (app_id self) (_auth_token self))
       = OK resp ∧
     ¬ (400 ≤ status_code resp < 600) ∧
     json_body resp = Some (JObj o) ∧
     o !! "data" = Some (JArr (JObj d0 :: rest)) ∧
     d0 !! "attributes" = Some (JObj attrs) ∧
     attrs !! "userRating" = Some (JObj ur) ∧
     ur !! "ratingCount" = Some v) ∧
  (run get_app_rating_count self).1.2 = self ∧
  (run get_app_rating_count self).2 =
    [EvRequest (GetAppInfo (app_name self) (app_id self) (_auth_token self))].
Proof.
  intros Htok. rewrite run_get_app_rating_count, Htok. cbn [fst snd].
  split; [|done]. unfold fetch_info, raise_for_status, response_json. split.
  - intros Hr. apply bind_OK in Hr as (info & Hinfo & Hr).
    apply bind_OK in Hinfo as (resp & Hresp & Hinfo).
    apply bind_OK in Hinfo as ([] & Hstatus & Hinfo).
    apply rating_of_iff in Hr as (o & d0 & rest & attrs & ur & -> & Hrest).
    exists resp, o, d0, rest, attrs, ur. split; [done|]. split.
    + intros [Hlo Hhi].
      destruct (Z.leb_spec 400 (status_code resp)); [|lia].
      destruct (Z.ltb_spec (status_code resp) 600); [done|lia].
    + split; [|done]. by destruct (json_body resp) as [j|]; [injection Hinfo as ->|].
  - intros (resp & o & d0 & rest & attrs & ur & Hresp & Hstatus & Hbody & Hrest).
    rewrite Hresp. simpl.
    assert ((400 <=? status_code resp) && (status_code resp <? 600) = false)
      as ->.
    { destruct (Z.leb_spec 400 (status_code resp));
        destruct (Z.ltb_spec (status_code resp) 600); try done. lia. }
    simpl. rewrite Hbody. simpl. apply rating_of_iff.
    by exists o, d0, rest, attrs, ur.
Qed.

Lemma rating_count_iff_witness :
  (run get_app_rating_count (with_token (sample_parser 25 (-1)) (JStr "tok"))).2
  = [EvRequest (GetAppInfo "app" 1 (JStr "tok"))].
Proof.
  apply (rating_count_iff (with_token (sample_parser 25 (-1)) (JStr "tok"))
           (JInt 25)).
  reflexivity.
Defined.

(** ** A token that is not truthy *)

Lemma unit_events_reauth (self : parser) (t : json) (page : Z) :
  truthy (_auth_token self) = false → fetch_token self = OK t → 0 < page →
  count_where auth_request (unit_events self page) = 1%nat.
Proof.
  intros Htok Hfetch Hpage. unfold unit_events.
  rewrite run_get_reviews_page, run__get_reviews, Htok, run__auth, Hfetch
    by done.
  by destruct (fetch_page (with_token self t) _).
Qed.

Lemma loop_events_reauth (self : parser) (t : json) (pages : list Z) :
  truthy (_auth_token self) = false → fetch_token self = OK t →
  Forall (λ p, 0 < p) pages →
  count_where auth_request (loop_events self pages) = length pages.
Proof.
  intros Htok Hfetch. induction 1 as [|page pages Hpage _ IH]; [done|].
  unfold loop_events in *. rewrite bind_cons, !count_where_app, IH.
  rewrite (unit_events_reauth self t page Htok Hfetch Hpage).
  unfold completion_log. by destruct (page_outcome self page).
Qed.

(** X18: [auth_required] tests the token for truth, not for presence.
    When the token the store hands out is not truthy (the empty string,
    say), it is never taken as held: the run authenticates once for the
    count and once more in every unit of work. *)
Theorem falsy_token_reauthenticates sched self t rc z :
  truthy (_auth_token self) = false →
  fetch_token self = OK t → truthy t = false →
  fetch_info (with_token self t) ≫= rating_of = OK rc →
  py_int rc = OK z →
  sched (planned_pages z) ≡ₚ planned_pages z →
  count_where auth_request (run (parse_parallel sched) self).2 =
    S (length (planned_pages z)).
Proof.
  intros Htok Hfetch Ht Hrc Hz Hperm.
  rewrite run_parse_parallel, run_get_app_rating_count, Htok, run__auth,
    Hfetch, Hrc, Hz.
  cbn [snd]. unfold orchestrator_events.
  rewrite !count_where_app.
  rewrite (loop_events_reauth (with_token self t) t).
  - rewrite (count_where_none _ (EvSubmit <$> _))
      by (apply Forall_fmap, Forall_true; done).
    rewrite Hperm. by destruct (MAX_REVIEWS <? z).
  - done.
  - done.
  - rewrite Hperm. apply Forall_seqZ. lia.
Qed.

Lemma falsy_token_reauthenticates_witness :
  count_where auth_request
    (run (parse_parallel reverse) (AppStoreParser blank_token_srv "app" 1)).2
  = 3%nat.
Proof.
  apply (falsy_token_reauthenticates reverse
           (AppStoreParser blank_token_srv "app" 1) (JStr EmptyString)
           (JInt 25) 25).
  - reflexivity.
  - vm_compute. reflexivity.
  - reflexivity.
  - vm_compute. reflexivity.
  - reflexivity.
  - apply reverse_Permutation.
Defined.
